(** * Sign-in reconciliation and bootstrap seeding of the CRM auth layer

    A shallow embedding of [src/services/firestore/authService.ts] and of
    the initial-users seeder, with the identity provider, the document
    store and the client-local storage threaded as an explicit world. *)

From Stdlib Require Import Ascii String List Bool.
From stdpp Require Import gmap strings list fin_maps.
Import ListNotations.

Local Open Scope string_scope.

(** ** Strings as the code uses them *)

Module Js.

(** [s.startsWith(sub)] *)
Fixpoint startsWith (sub s : string) : bool :=
  match sub, s with
  | EmptyString, _ => true
  | String _ _, EmptyString => false
  | String a sub', String b s' => Ascii.eqb a b && startsWith sub' s'
  end.

(** [s.includes(sub)]: [sub] occurs at some position of [s]. *)
Fixpoint includes (sub s : string) : bool :=
  startsWith sub s ||
  match s with
  | EmptyString => false
  | String _ s' => includes sub s'
  end.

(** [s.split('@')[0]]: the text before the first at-sign, the whole
    string when there is none. *)
Fixpoint split_at_0 (s : string) : string :=
  match s with
  | EmptyString => EmptyString
  | String c s' => if Ascii.eqb c "@"%char then EmptyString
                   else String c (split_at_0 s')
  end.

(** Truthiness of a [string | null | undefined] value: null, undefined
    and the empty string are falsy. *)
Definition truthy (v : option string) : bool :=
  match v with
  | None => false
  | Some EmptyString => false
  | Some (String _ _) => true
  end.

(** [a || b] on such values. *)
Definition or (a b : option string) : option string :=
  if truthy a then a else b.

(** [a || 'literal'] *)
Definition or_lit (a : option string) (b : string) : string :=
  match a with
  | Some (String c s) => String c s
  | _ => b
  end.

End Js.

(** ** Data model *)

Inductive UserRole := admin | sales_agent | operations_manager | operator.

#[global] Instance UserRole_eq_dec : EqDecision UserRole.
Proof. solve_decision. Defined.

(** The identity provider's record of an account ([firebaseUser]). *)
Record Principal := mkPrincipal {
  uid : string;
  p_email : option string;
  displayName : option string
}.

(** The profile handed to callers ([User]).  The fields copied out of a
    stored document are whatever the document holds, hence optional. *)
Record User := mkUser {
  user_id : string;
  user_name : option string;
  user_email : option string;
  user_role : option UserRole
}.

Inductive FieldValue := serverTimestamp.

(** A document of the [users] collection.  The store has no schema: a
    field is present or not.  The same shape serves for the data of a
    write, where an absent field is a field the write does not mention. *)
Record Doc := mkDoc {
  d_id : option string;
  d_name : option string;
  d_email : option string;
  d_role : option UserRole;
  d_createdAt : option FieldValue
}.

(** [Partial<User>]: any subset of the four fields of [User]. *)
Record PartialUser := mkPartial {
  upd_id : option string;
  upd_name : option string;
  upd_email : option string;
  upd_role : option UserRole
}.

(** An entry of the seeder's list ([InitialUser]). *)
Record InitialUser := mkInitialUser {
  iu_email : string;
  iu_password : string;
  iu_name : string;
  iu_role : UserRole
}.

#[global] Instance Principal_eq_dec : EqDecision Principal.
Proof. solve_decision. Defined.
#[global] Instance User_eq_dec : EqDecision User.
Proof. solve_decision. Defined.
#[global] Instance FieldValue_eq_dec : EqDecision FieldValue.
Proof. solve_decision. Defined.
#[global] Instance Doc_eq_dec : EqDecision Doc.
Proof. solve_decision. Defined.

(** ** Role inference *)

(** [determineRoleFromEmail], authService.ts lines 13-21.  [!email] holds
    for [null] and for the empty string. *)
Definition determineRoleFromEmail (email : option string) : UserRole :=
  match email with
  | None => operator
  | Some EmptyString => operator
  | Some e =>
      if Js.includes "admin" e then admin
      else if Js.includes "sales" e then sales_agent
      else if Js.includes "ops" e || Js.includes "manager" e
           then operations_manager
      else operator
  end.

(** The rule of the specification, in its own words: no email gives
    operator, then the four substring rules in order. *)
Definition inferRole_spec (email : option string) : UserRole :=
  match email with
  | None => operator
  | Some e =>
      if Js.includes "admin" e then admin
      else if Js.includes "sales" e then sales_agent
      else if Js.includes "ops" e || Js.includes "manager" e
           then operations_manager
      else operator
  end.

(** ** Errors and outcomes *)

(** A thrown value: provider errors carry a stable string [code], a plain
    [new Error(msg)] carries none. *)
Record Error := mkError {
  code : option string;
  message : string
}.

#[global] Instance Error_eq_dec : EqDecision Error.
Proof. solve_decision. Defined.

Definition new_Error (msg : string) : Error :=
  {| code := None; message := msg |}.

(** [error.code === c] *)
Definition code_is (c : string) (e : Error) : bool :=
  bool_decide (code e = Some c).

(** How an awaited call or a function body ends. *)
Inductive Completion (A : Type) :=
| Return (a : A)
| Throw (e : Error).
Arguments Return {A} a.
Arguments Throw {A} e.

(** How an iteration of a [for..of] loop hands over: to the next entry,
    or out of the loop by [break].  A loop as a whole ends the same way. *)
Inductive Control := Next | Break.

(** ** The world outside the functions *)

(** The calls that leave the process, and the timer, in issue order. *)
Inductive Event :=
| SignInWithEmailAndPassword (email password : string)
| GetIdToken (id : string)
| CreateUserWithEmailAndPassword (email password : string)
| UpdateProfile (id name : string)
| GetDoc (id : string)
| SetDoc (id : string) (data : Doc) (merge : bool)
| SetTimeout (ms : nat).

#[global] Instance Event_eq_dec : EqDecision Event.
Proof. solve_decision. Defined.

Record World := mkWorld {
  (** identity provider: registered accounts by email, signed-in principal *)
  accounts : gmap string Principal;
  currentUser : option Principal;
  (** document store: the [users] collection by document id *)
  users : gmap string Doc;
  (** writes issued and not awaited, oldest first *)
  inflight : list (string * Doc);
  (** client-local storage *)
  sessionStorage : gmap string string;
  localStorage : gmap string string;
  persistentAuth : option User;
  (** everything issued so far, oldest first *)
  trace : list Event
}.

Definition set_accounts (f : gmap string Principal -> gmap string Principal)
    (w : World) : World :=
  mkWorld (f (accounts w)) (currentUser w) (users w) (inflight w)
          (sessionStorage w) (localStorage w) (persistentAuth w) (trace w).
Definition set_currentUser (f : option Principal -> option Principal)
    (w : World) : World :=
  mkWorld (accounts w) (f (currentUser w)) (users w) (inflight w)
          (sessionStorage w) (localStorage w) (persistentAuth w) (trace w).
Definition set_users (f : gmap string Doc -> gmap string Doc)
    (w : World) : World :=
  mkWorld (accounts w) (currentUser w) (f (users w)) (inflight w)
          (sessionStorage w) (localStorage w) (persistentAuth w) (trace w).
Definition set_inflight (f : list (string * Doc) -> list (string * Doc))
    (w : World) : World :=
  mkWorld (accounts w) (currentUser w) (users w) (f (inflight w))
          (sessionStorage w) (localStorage w) (persistentAuth w) (trace w).
Definition set_sessionStorage (f : gmap string string -> gmap string string)
    (w : World) : World :=
  mkWorld (accounts w) (currentUser w) (users w) (inflight w)
          (f (sessionStorage w)) (localStorage w) (persistentAuth w) (trace w).
Definition set_localStorage (f : gmap string string -> gmap string string)
    (w : World) : World :=
  mkWorld (accounts w) (currentUser w) (users w) (inflight w)
          (sessionStorage w) (f (localStorage w)) (persistentAuth w) (trace w).
Definition set_persistentAuth (f : option User -> option User)
    (w : World) : World :=
  mkWorld (accounts w) (currentUser w) (users w) (inflight w)
          (sessionStorage w) (localStorage w) (f (persistentAuth w)) (trace w).
Definition emit (ev : Event) (w : World) : World :=
  mkWorld (accounts w) (currentUser w) (users w) (inflight w)
          (sessionStorage w) (localStorage w) (persistentAuth w)
          ((trace w ++ [ev])%list).

(** What the remote services answer during one run.  The handles [auth]
    and [db] come from [lib/firebase]; the code tests them for null.
    Credential verification is the provider's own: its verdict on a pair
    is taken as given.  Every other remote call may be failed by the
    service with an error of its choosing. *)
Record Env := mkEnv {
  auth : bool;
  db : bool;
  verdict : string -> string -> Completion Principal;
  getIdToken_fault : string -> option Error;
  createUser_fault : string -> option Error;
  new_uid : string -> string;
  updateProfile_fault : string -> option Error;
  getDoc_fault : string -> option Error;
  setDoc_fault : string -> option Error;
  background_fault : string -> option Error
}.

(** ** Asynchronous functions as state and exception passing *)

Definition M (A : Type) : Type := World -> Completion A * World.

Definition ret {A} (a : A) : M A := fun w => (Return a, w).

Definition throw {A} (e : Error) : M A := fun w => (Throw e, w).

Definition bind {A B} (m : M A) (k : A -> M B) : M B :=
  fun w =>
    match m w with
    | (Return a, w') => k a w'
    | (Throw e, w') => (Throw e, w')
    end.

(** [try { m } catch (e) { h e }] *)
Definition try_catch {A} (m : M A) (h : Error -> M A) : M A :=
  fun w =>
    match m w with
    | (Return a, w') => (Return a, w')
    | (Throw e, w') => h e w'
    end.

Definition effect (f : World -> World) : M unit :=
  fun w => (Return tt, f w).

Notation "'let*' x ':=' m 'in' k" := (bind m (fun x => k))
  (at level 10, x name, m at level 100, k at level 200).

(** ** The SDK calls, as the capability contracts describe them *)

Section Operations.

Context (env : Env).

(** A remote call that the service may fail, run for its effect. *)
Definition remote (ev : Event) (fault : option Error)
    (f : World -> World) : M unit :=
  fun w =>
    match fault with
    | Some e => (Throw e, emit ev w)
    | None => (Return tt, f (emit ev w))
    end.

Definition sessionStorage_setItem (k v : string) : M unit :=
  effect (set_sessionStorage (insert k v)).

Definition localStorage_getItem (k : string) : M (option string) :=
  fun w => (Return (localStorage w !! k), w).

Definition localStorage_setItem (k v : string) : M unit :=
  effect (set_localStorage (insert k v)).

(** [signInWithEmailAndPassword(auth, email, password)]: the provider's
    verdict; on success the principal becomes the current one. *)
Definition signInWithEmailAndPassword (email password : string)
    : M Principal :=
  fun w =>
    let w1 := emit (SignInWithEmailAndPassword email password) w in
    match verdict env email password with
    | Return p => (Return p, set_currentUser (fun _ => Some p) w1)
    | Throw e => (Throw e, w1)
    end.

(** [auth.currentUser] *)
Definition auth_currentUser : M (option Principal) :=
  fun w => (Return (currentUser w), w).

(** [firebaseUser.getIdToken(true)] *)
Definition getIdToken (firebaseUser : Principal) : M unit :=
  remote (GetIdToken (uid firebaseUser))
         (getIdToken_fault env (uid firebaseUser)) (fun w => w).

(** [createUserWithEmailAndPassword(auth, email, password)]: a null
    handle makes the SDK throw; an email already registered is
    rejected with [auth/email-already-in-use]; otherwise the account
    is created and signed in. *)
Definition createUserWithEmailAndPassword (email password : string)
    : M Principal :=
  fun w =>
    let w1 := emit (CreateUserWithEmailAndPassword email password) w in
    if negb (auth env) then (Throw (new_Error "auth is null"), w1)
    else
      match createUser_fault env email with
      | Some e => (Throw e, w1)
      | None =>
          match accounts w !! email with
          | Some _ =>
              (Throw {| code := Some "auth/email-already-in-use";
                        message := "email already in use" |}, w1)
          | None =>
              let p := {| uid := new_uid env email;
                          p_email := Some email;
                          displayName := None |} in
              (Return p,
               set_currentUser (fun _ => Some p)
                 (set_accounts (insert email p) w1))
          end
      end.

Definition rename (id name : string) (p : Principal) : Principal :=
  if decide (uid p = id)
  then {| uid := uid p; p_email := p_email p; displayName := Some name |}
  else p.

(** [updateProfile(firebaseUser, { displayName: name })] *)
Definition updateProfile (firebaseUser : Principal) (name : string)
    : M unit :=
  remote (UpdateProfile (uid firebaseUser) name)
         (updateProfile_fault env (uid firebaseUser))
         (fun w => set_currentUser (fmap (rename (uid firebaseUser) name))
                     (set_accounts (fmap (rename (uid firebaseUser) name)) w)).

(** Field-wise merge of a write into a stored document. *)
Definition merge_doc (old new : Doc) : Doc :=
  {| d_id := match d_id new with Some v => Some v | None => d_id old end;
     d_name := match d_name new with Some v => Some v | None => d_name old end;
     d_email := match d_email new with Some v => Some v | None => d_email old end;
     d_role := match d_role new with Some v => Some v | None => d_role old end;
     d_createdAt := match d_createdAt new with
                    | Some v => Some v
                    | None => d_createdAt old
                    end |}.

(** What a write leaves in the store: the data itself, or with
    [{ merge: true }] the data merged over what is there. *)
Definition written (merge : bool) (data : Doc) (old : option Doc) : Doc :=
  match merge, old with
  | true, Some d => merge_doc d data
  | _, _ => data
  end.

Definition store_write (id : string) (data : Doc) (merge : bool)
    (w : World) : World :=
  set_users (insert id (written merge data (users w !! id))) w.

(** [getDoc(ref)] followed by [.data()]: the document, or undefined. *)
Definition getDoc (id : string) : M (option Doc) :=
  fun w =>
    let w1 := emit (GetDoc id) w in
    match getDoc_fault env id with
    | Some e => (Throw e, w1)
    | None => (Return (users w !! id), w1)
    end.

(** [await setDoc(ref, data, options)] *)
Definition setDoc (id : string) (data : Doc) (merge : bool) : M unit :=
  remote (SetDoc id data merge) (setDoc_fault env id)
         (store_write id data merge).

(** [setDoc(ref, data)] issued and not awaited: the request leaves, its
    completion is nobody's to wait for. *)
Definition setDoc_detached (id : string) (data : Doc) : M unit :=
  effect (fun w => set_inflight (fun l => (l ++ [(id, data)])%list)
                     (emit (SetDoc id data false) w)).

(** [doc(db, 'users', id)] of the SDK: throws on a null handle. *)
Definition doc (id : string) : M string :=
  if db env then ret id else throw (new_Error "db is null").

(** [setTimeout] awaited through a promise. *)
Definition delay (ms : nat) : M unit := effect (emit (SetTimeout ms)).

(** *** authService.ts *)

(** lines 29-32 *)
Definition safeDoc (id : string) : option string :=
  if negb (db env) then None else Some id.

(** lines 24-27 *)
Definition safeGetDoc (docRef : option string) : M (option Doc) :=
  match docRef with
  | None => throw (new_Error "Document reference is null")
  | Some ref => getDoc ref
  end.

(** lines 34-37 *)
Definition safeSetDoc (docRef : option string) (data : Doc) (merge : bool)
    : M unit :=
  match docRef with
  | None => throw (new_Error "Document reference is null")
  | Some ref => setDoc ref data merge
  end.

(** [firebaseUser.displayName || firebaseUser.email?.split('@')[0] || 'User'] *)
Definition fallbackName (firebaseUser : Principal) : string :=
  Js.or_lit (Js.or (displayName firebaseUser)
                   (Js.split_at_0 <$> p_email firebaseUser))
            "User".

(** [firebaseUser.email || ''] *)
Definition fallbackEmail (firebaseUser : Principal) : string :=
  Js.or_lit (p_email firebaseUser) "".

(** Modelled from the spec: [savePersistentAuth] of [./persistentAuth],
    a module that is not part of the sources at hand.  The resolved
    profile is persisted to a secondary client-side durable cache. *)
Definition savePersistentAuth (user : User) : M unit :=
  effect (set_persistentAuth (fun _ => Some user)).

(** The [switch (authError.code)] of lines 199-212. *)
Definition friendly (authError : Error) : Error :=
  if code_is "auth/invalid-credential" authError then
    new_Error "Invalid email or password. Please check your credentials and try again."
  else if code_is "auth/user-not-found" authError then
    new_Error "No account found with this email address."
  else if code_is "auth/wrong-password" authError then
    new_Error "Incorrect password. Please try again."
  else if code_is "auth/too-many-requests" authError then
    new_Error "Too many failed login attempts. Please try again later."
  else if code_is "auth/user-disabled" authError then
    new_Error "This account has been disabled. Please contact support."
  else
    new_Error "An error occurred during sign in. Please try again.".

(** lines 96-150: the inner [try].  [Some user] is a [return user] from
    inside it, [None] is control reaching line 152. *)
Definition signIn_lookup (firebaseUser : Principal) : M (option User) :=
  try_catch
    (let userDocRef := safeDoc (uid firebaseUser) in
     let* userDoc := safeGetDoc userDocRef in
     match userDoc with
     | Some userData =>
         ret (Some {| user_id := uid firebaseUser;
                      user_name := d_name userData;
                      user_email := d_email userData;
                      user_role := d_role userData |})
     | None =>
         let userData :=
           {| d_id := Some (uid firebaseUser);
              d_name := Some (fallbackName firebaseUser);
              d_email := Some (fallbackEmail firebaseUser);
              d_role := Some (determineRoleFromEmail (p_email firebaseUser));
              d_createdAt := Some serverTimestamp |} in
         try_catch
           (let* _ := safeSetDoc userDocRef userData false in
            ret (Some {| user_id := uid firebaseUser;
                         user_name := d_name userData;
                         user_email := d_email userData;
                         user_role := d_role userData |}))
           (fun createError => throw createError)
     end)
    (fun firestoreError => ret None).

(** lines 152-193: the statements after the inner [try]. *)
Definition signIn_fallback (firebaseUser : Principal) : M User :=
  let role := determineRoleFromEmail (p_email firebaseUser) in
  let user := {| user_id := uid firebaseUser;
                 user_name := Some (fallbackName firebaseUser);
                 user_email := Some (fallbackEmail firebaseUser);
                 user_role := Some role |} in
  let bgUserDocRef := safeDoc (uid firebaseUser) in
  let* _ :=
    match bgUserDocRef with
    | Some ref =>
        setDoc_detached ref
          {| d_id := Some (uid firebaseUser);
             d_name := user_name user;
             d_email := user_email user;
             d_role := Some role;
             d_createdAt := Some serverTimestamp |}
    | None => ret tt
    end in
  let* _ := sessionStorage_setItem "user-authenticated-this-session" "true" in
  let* _ := savePersistentAuth user in
  ret user.

(** [signIn], lines 76-214. *)
Definition signIn (email password : string) : M User :=
  try_catch
    (let* _ := sessionStorage_setItem "explicit-auth-action" "true" in
     let* _ := if negb (auth env)
               then throw (new_Error "Firebase auth is not initialized")
               else ret tt in
     let* firebaseUser := signInWithEmailAndPassword email password in
     let* _ := getIdToken firebaseUser in
     let* returned := signIn_lookup firebaseUser in
     match returned with
     | Some user => ret user
     | None => signIn_fallback firebaseUser
     end)
    (fun error => throw (friendly error)).

(** [getCurrentUser], lines 246-301. *)
Definition getCurrentUser : M (option User) :=
  if negb (auth env) then ret None
  else
    let* current := auth_currentUser in
    match current with
    | None => ret None
    | Some firebaseUser =>
        try_catch
          (let userDocRef := safeDoc (uid firebaseUser) in
           match userDocRef with
           | None =>
               let role := determineRoleFromEmail (p_email firebaseUser) in
               ret (Some {| user_id := uid firebaseUser;
                            user_name := Some (fallbackName firebaseUser);
                            user_email := Some (fallbackEmail firebaseUser);
                            user_role := Some role |})
           | Some _ =>
               let* userDoc := safeGetDoc userDocRef in
               match userDoc with
               | Some userData =>
                   ret (Some {| user_id := uid firebaseUser;
                                user_name := d_name userData;
                                user_email := d_email userData;
                                user_role := d_role userData |})
               | None =>
                   let role := determineRoleFromEmail (p_email firebaseUser) in
                   ret (Some {| user_id := uid firebaseUser;
                                user_name := Some (fallbackName firebaseUser);
                                user_email := Some (fallbackEmail firebaseUser);
                                user_role := Some role |})
               end
           end)
          (fun error => throw error)
    end.

(** [Partial<User>] as the data of a write. *)
Definition partial_doc (updates : PartialUser) : Doc :=
  {| d_id := upd_id updates; d_name := upd_name updates;
     d_email := upd_email updates; d_role := upd_role updates;
     d_createdAt := None |}.

(** [updateUserProfile], lines 304-334. *)
Definition updateUserProfile (userId : string) (updates : PartialUser)
    : M User :=
  try_catch
    (let userRef := safeDoc userId in
     let* _ := match userRef with
               | None => throw (new_Error
                   "Failed to create document reference: Firestore not initialized")
               | Some _ => ret tt
               end in
     let* _ := safeSetDoc userRef (partial_doc updates) true in
     let* updatedDoc := safeGetDoc userRef in
     match updatedDoc with
     | None => throw (new_Error "User data not found after update")
     | Some userData =>
         ret {| user_id := userId;
                user_name := d_name userData;
                user_email := d_email userData;
                user_role := d_role userData |}
     end)
    (fun error => throw error).

(** *** The seeder *)

(** [createInitialUser], lines 41-78 of the seeder. *)
Definition createInitialUser (email password name : string)
    (role : UserRole) : M (option User) :=
  try_catch
    (let* firebaseUser := createUserWithEmailAndPassword email password in
     let* _ := updateProfile firebaseUser name in
     let userData := {| d_id := Some (uid firebaseUser);
                        d_name := Some name;
                        d_email := Some email;
                        d_role := Some role;
                        d_createdAt := Some serverTimestamp |} in
     let* ref := doc (uid firebaseUser) in
     let* _ := setDoc ref userData false in
     ret (Some {| user_id := uid firebaseUser;
                  user_name := Some name;
                  user_email := Some email;
                  user_role := Some role |}))
    (fun error =>
       if code_is "auth/email-already-in-use" error then ret None
       else throw error).

(** One iteration of the loop of [setupInitialUsers], lines 84-107. *)
Definition seed_step (user : InitialUser) : M Control :=
  try_catch
    (let* flag := localStorage_getItem "user-setup-rate-limited" in
     if bool_decide (flag = Some "true") then ret Break
     else
       let* result := createInitialUser (iu_email user) (iu_password user)
                                        (iu_name user) (iu_role user) in
       let* _ := delay 1500 in
       ret Next)
    (fun error =>
       if code_is "auth/too-many-requests" error then
         let* _ := localStorage_setItem "user-setup-rate-limited" "true" in
         ret Break
       else if negb (code_is "auth/email-already-in-use" error) then
         throw error
       else ret Next).

(** [for (const user of l) { ... }] *)
Fixpoint for_of (l : list InitialUser) : M Control :=
  match l with
  | [] => ret Next
  | user :: rest =>
      let* c := seed_step user in
      match c with
      | Break => ret Break
      | Next => for_of rest
      end
  end.

(** The body of [setupInitialUsers] over a list of entries. *)
Definition setupUsers (l : list InitialUser) : M unit :=
  try_catch
    (let* _ := for_of l in ret tt)
    (fun error => throw error).

(** *** Completion of the writes nobody awaits *)

(** A detached write lands in the store, or fails into the [.catch]
    handler, which logs and returns. *)
Definition settle_one (w : World) (job : string * Doc) : World :=
  match background_fault env (fst job) with
  | Some _ => w
  | None => store_write (fst job) (snd job) false w
  end.

Definition settle (w : World) : World :=
  set_inflight (fun _ => []) (fold_left settle_one (inflight w) w).

End Operations.

(** lines 13-38 of the seeder *)
Definition INITIAL_USERS : list InitialUser :=
  [ {| iu_email := "admin@aspcranes.com"; iu_password := "admin123";
       iu_name := "Admin User"; iu_role := admin |};
    {| iu_email := "john@aspcranes.com"; iu_password := "sales123";
       iu_name := "John Sales"; iu_role := sales_agent |};
    {| iu_email := "sara@aspcranes.com"; iu_password := "manager123";
       iu_name := "Sara Manager"; iu_role := operations_manager |};
    {| iu_email := "mike@aspcranes.com"; iu_password := "operator123";
       iu_name := "Mike Operator"; iu_role := operator |} ].

(** [setupInitialUsers], lines 80-114 of the seeder. *)
Definition setupInitialUsers (env : Env) : M unit :=
  setupUsers env INITIAL_USERS.

(** ** Vocabulary of the statements *)

(** The profile synthesized from the principal's data and role
    inference. *)
Definition synthesized (p : Principal) : User :=
  {| user_id := uid p;
     user_name := Some (fallbackName p);
     user_email := Some (fallbackEmail p);
     user_role := Some (determineRoleFromEmail (p_email p)) |}.

(** The document that carries a synthesized profile. *)
Definition synthesized_doc (p : Principal) : Doc :=
  {| d_id := Some (uid p);
     d_name := Some (fallbackName p);
     d_email := Some (fallbackEmail p);
     d_role := Some (determineRoleFromEmail (p_email p));
     d_createdAt := Some serverTimestamp |}.

(** The profile read off a stored document for a principal. *)
Definition stored (p : Principal) (d : Doc) : User :=
  {| user_id := uid p;
     user_name := d_name d;
     user_email := d_email d;
     user_role := d_role d |}.

(** The name rule in the specification's words: the display name if
    there is one, else the local part of the email, else the literal. *)
Definition first_available_name (p : Principal) : string :=
  match displayName p with
  | Some (String c s) => String c s
  | _ =>
      match p_email p with
      | Some e =>
          match Js.split_at_0 e with
          | String c s => String c s
          | EmptyString => "User"
          end
      | None => "User"
      end
  end.

(** Everything of a world but the trace. *)
Definition same_state (w1 w2 : World) : Prop :=
  accounts w1 = accounts w2 /\ currentUser w1 = currentUser w2 /\
  users w1 = users w2 /\ inflight w1 = inflight w2 /\
  sessionStorage w1 = sessionStorage w2 /\
  localStorage w1 = localStorage w2 /\
  persistentAuth w1 = persistentAuth w2.

(** The emails for which account creation was asked of the provider. *)
Definition attempted (t : list Event) : list string :=
  flat_map (fun ev => match ev with
                      | CreateUserWithEmailAndPassword email _ => [email]
                      | _ => []
                      end) t.

(** Events that change the provider's or the store's data when they
    succeed, account creation apart. *)
Definition is_write (ev : Event) : bool :=
  match ev with
  | UpdateProfile _ _ | SetDoc _ _ _ => true
  | _ => false
  end.

Definition rate_limit_flag : string := "user-setup-rate-limited".

(** A world with further events issued and nothing else changed. *)
Definition emits (t : list Event) (w : World) : World :=
  mkWorld (accounts w) (currentUser w) (users w) (inflight w)
          (sessionStorage w) (localStorage w) (persistentAuth w)
          ((trace w ++ t)%list).

(** What the seeder issues for an entry whose account exists already. *)
Definition skipped (l : list InitialUser) : list Event :=
  flat_map (fun u => [CreateUserWithEmailAndPassword (iu_email u) (iu_password u);
                      SetTimeout 1500]) l.

(** The services answer every call of a seeder run as their contract
    says, failing none. *)
Definition no_faults (env : Env) : Prop :=
  auth env = true /\ db env = true /\
  (forall k, createUser_fault env k = None) /\
  (forall k, updateProfile_fault env k = None) /\
  (forall k, setDoc_fault env k = None).

(** The same environment with another fate for detached writes. *)
Definition with_background (bf : string -> option Error) (env : Env) : Env :=
  mkEnv (auth env) (db env) (verdict env) (getIdToken_fault env)
        (createUser_fault env) (new_uid env) (updateProfile_fault env)
        (getDoc_fault env) (setDoc_fault env) bf.

(** The world in which the profile lookup of a sign-in starts: marker
    set, principal signed in, token refreshed. *)
Definition authenticated (email password : string) (p : Principal)
    (w : World) : World :=
  emit (GetIdToken (uid p))
    (set_currentUser (fun _ => Some p)
       (emit (SignInWithEmailAndPassword email password)
          (set_sessionStorage (insert "explicit-auth-action" "true") w))).

(** What the statements after the inner [try] of [signIn] do to a
    world, with or without a store handle for the detached write. *)
Definition degraded (with_write : bool) (p : Principal) (w : World) : World :=
  set_persistentAuth (fun _ => Some (synthesized p))
    (set_sessionStorage (insert "user-authenticated-this-session" "true")
       (if with_write
        then set_inflight (fun l => (l ++ [(uid p, synthesized_doc p)])%list)
               (emit (SetDoc (uid p) (synthesized_doc p) false) w)
        else w)).

(** Sample worlds and environments for the examples. *)
Definition empty_world : World := mkWorld ∅ None ∅ [] ∅ ∅ None [].

Definition uid_of (email : string) : string := "uid:" ++ email.

Definition sample_principal (email : string) : Principal :=
  {| uid := uid_of email; p_email := Some email; displayName := None |}.

Definition healthy : Env :=
  mkEnv true true (fun email _ => Return (sample_principal email))
        (fun _ => None) (fun _ => None) uid_of (fun _ => None)
        (fun _ => None) (fun _ => None) (fun _ => None).

Definition unavailable : Error :=
  {| code := Some "unavailable"; message := "store unreachable" |}.
Definition permission_denied : Error :=
  {| code := Some "permission-denied"; message := "insufficient permissions" |}.
Definition too_many_requests : Error :=
  {| code := Some "auth/too-many-requests"; message := "rate limited" |}.

(** The store handle was never initialised. *)
Definition no_store : Env :=
  mkEnv true false (verdict healthy) (fun _ => None) (fun _ => None) uid_of
        (fun _ => None) (fun _ => None) (fun _ => None) (fun _ => None).

(** The store refuses reads. *)
Definition store_down : Env :=
  mkEnv true true (verdict healthy) (fun _ => None) (fun _ => None) uid_of
        (fun _ => None) (fun _ => Some unavailable) (fun _ => None)
        (fun _ => Some unavailable).

(** The store serves reads and refuses writes. *)
Definition read_only_store : Env :=
  mkEnv true true (verdict healthy) (fun _ => None) (fun _ => None) uid_of
        (fun _ => None) (fun _ => None) (fun _ => Some permission_denied)
        (fun _ => Some permission_denied).

(** The provider rate-limits the creation of one account. *)
Definition rate_limited_at (email : string) : Env :=
  mkEnv true true (verdict healthy) (fun _ => None)
        (fun k => if decide (k = email) then Some too_many_requests else None)
        uid_of (fun _ => None) (fun _ => None) (fun _ => None) (fun _ => None).

(** The store refuses the write of one document. *)
Definition write_refused_for (id : string) : Env :=
  mkEnv true true (verdict healthy) (fun _ => None) (fun _ => None) uid_of
        (fun _ => None) (fun _ => None)
        (fun k => if decide (k = id) then Some permission_denied else None)
        (fun _ => None).

(** The store after a complete seeder run on an empty system. *)
Definition seeded_world : World := snd (setupInitialUsers healthy empty_world).

(** The administrator's document after an update that rewrites its [id]
    field. *)
Definition relabelled_world : World :=
  snd (updateUserProfile healthy (uid_of "admin@aspcranes.com")
         {| upd_id := Some "uid:mike@aspcranes.com"; upd_name := None;
            upd_email := None; upd_role := None |}
         seeded_world).

(** ** The rest of authService.ts *)

Section Accounts.

Context (env : Env).

(** [signUp], lines 39-74. *)
Definition signUp (email password name : string) (role : UserRole) : M User :=
  try_catch
    (let* _ := if negb (auth env)
               then throw (new_Error "Firebase auth is not initialized")
               else ret tt in
     let* firebaseUser := createUserWithEmailAndPassword env email password in
     let* _ := updateProfile env firebaseUser name in
     let userData := {| d_id := Some (uid firebaseUser);
                        d_name := Some name;
                        d_email := Some email;
                        d_role := Some role;
                        d_createdAt := Some serverTimestamp |} in
     let userDocRef := safeDoc env (uid firebaseUser) in
     let* _ := safeSetDoc env userDocRef userData false in
     ret {| user_id := uid firebaseUser;
            user_name := Some name;
            user_email := Some email;
            user_role := Some role |})
    (fun error => throw error).

Definition sessionStorage_removeItem (k : string) : M unit :=
  effect (set_sessionStorage (delete k)).

(** [signOut(auth)] of the SDK: local to the client, so it leaves no
    event; the provider may fail it, and on success nobody is signed in.
    Its fate is a parameter of the run. *)
Definition signOut (fault : option Error) : M unit :=
  fun w =>
    match fault with
    | Some e => (Throw e, w)
    | None => (Return tt, set_currentUser (fun _ => None) w)
    end.

(** [signOutUser], lines 216-244.  [clearPersistentAuth] belongs to
    [./persistentAuth], a module that is not part of the sources at
    hand: it is taken as a parameter, any function of the cache that
    [savePersistentAuth] fills. *)
Definition signOutUser (clearPersistentAuth : option User -> option User)
    (fault : option Error) : M unit :=
  try_catch
    (let* _ := sessionStorage_setItem "explicit-auth-action" "true" in
     let* _ := effect (set_persistentAuth clearPersistentAuth) in
     let* _ := sessionStorage_removeItem "user-authenticated-this-session" in
     if negb (auth env) then ret tt
     else signOut fault)
    (fun error => throw error).

End Accounts.

(** ** The access policy of the store *)

Module Rules.

(** The operations a rule can allow: [read] is get and list, [write] is
    create, update and delete. *)
Inductive Method := Get | List | Create | Update | Delete.

Definition is_read (m : Method) : bool :=
  match m with Get | List => true | _ => false end.

Definition is_write (m : Method) : bool :=
  match m with Create | Update | Delete => true | _ => false end.

(** [request.auth != null]; [request.auth] is the caller's uid or null. *)
Definition signed_in (auth : option string) : bool :=
  match auth with Some _ => true | None => false end.

(** [request.auth.uid == userId] *)
Definition is_owner (auth : option string) (userId : string) : bool :=
  match auth with
  | Some uid => bool_decide (uid = userId)
  | None => false
  end.

(** [getUserData()], lines 6-8: the caller's own document.  The [get] of
    a document that does not exist is an evaluation error, which fails
    the condition it occurs in: it is [None] here and every test on it
    is false. *)
Definition getUserData (store : gmap string Doc) (auth : option string)
    : option Doc :=
  match auth with
  | Some uid => store !! uid
  | None => None
  end.

(** [hasRole(roles)], lines 10-13 *)
Definition hasRole (store : gmap string Doc) (auth : option string)
    (roles : list UserRole) : bool :=
  match getUserData store auth with
  | Some userData =>
      match d_role userData with
      | Some r => bool_decide (r ∈ roles)
      | None => false
      end
  | None => false
  end.

Definition role_is (store : gmap string Doc) (auth : option string)
    (r : UserRole) : bool :=
  match getUserData store auth with
  | Some userData => bool_decide (d_role userData = Some r)
  | None => false
  end.

(** lines 15-18 *)
Definition isAdmin (store : gmap string Doc) (auth : option string) : bool :=
  role_is store auth admin.

(** lines 20-23 *)
Definition isOperationsManager (store : gmap string Doc)
    (auth : option string) : bool :=
  role_is store auth operations_manager.

(** lines 25-28 *)
Definition isSalesAgent (store : gmap string Doc) (auth : option string)
    : bool :=
  role_is store auth sales_agent.

(** [match /users/{userId}], lines 31-36: three [allow] statements, any
    of which grants. *)
Definition match_users (store : gmap string Doc) (auth : option string)
    (userId : string) (m : Method) : bool :=
  (is_read m && signed_in auth)
  || (is_write m && (signed_in auth && is_owner auth userId))
  || (is_write m &&
      (signed_in auth && (is_owner auth userId || isAdmin store auth))).

(** [match /leads/{leadId}] and [match /quotations/{quotationId}],
    lines 39-50 *)
Definition match_sales (store : gmap string Doc) (auth : option string)
    (m : Method) : bool :=
  (is_read m && signed_in auth)
  || (is_write m &&
      (signed_in auth &&
       (isAdmin store auth || isSalesAgent store auth
        || isOperationsManager store auth))).

(** [match /jobs/{jobId}] and [match /deals/{dealId}], lines 53-62 *)
Definition match_open (auth : option string) (m : Method) : bool :=
  (is_read m && signed_in auth) || (is_write m && signed_in auth).

(** [match /{collection}/{document=**}], lines 65-68 *)
Definition match_default (store : gmap string Doc) (auth : option string)
    (m : Method) : bool :=
  (is_read m && signed_in auth)
  || (is_write m && (signed_in auth && isAdmin store auth)).

(** The decision on a document path: every [match] block whose pattern
    fits the path is consulted, and one grant suffices.  The named
    blocks fit the documents of their collection, the last block fits
    every document at any depth. *)
Definition allowed (store : gmap string Doc) (auth : option string)
    (path : list string) (m : Method) : bool :=
  match path with
  | collection :: document :: rest =>
      match rest with
      | [] =>
          (String.eqb collection "users" && match_users store auth document m)
          || ((String.eqb collection "leads" || String.eqb collection "quotations")
              && match_sales store auth m)
          || ((String.eqb collection "jobs" || String.eqb collection "deals")
              && match_open auth m)
      | _ :: _ => false
      end
      || match_default store auth m
  | _ => false
  end.

End Rules.

(** An environment that answers everything and assigns ids by [uid_of],
    but whose store refuses reads for one document. *)
Definition read_refused_for (id : string) : Env :=
  mkEnv true true (verdict healthy) (fun _ => None) (fun _ => None) uid_of
        (fun _ => None)
        (fun k => if decide (k = id) then Some unavailable else None)
        (fun _ => None) (fun _ => None).

(** The provider refuses to refresh tokens. *)
Definition token_refused : Env :=
  mkEnv true true (verdict healthy) (fun _ => Some unavailable)
        (fun _ => None) uid_of (fun _ => None) (fun _ => None)
        (fun _ => None) (fun _ => None).

(** The provider rejects every credential pair. *)
Definition wrong_password : Error :=
  {| code := Some "auth/wrong-password";
     message := "Firebase: Error (auth/wrong-password)." |}.

Definition rejecting : Env :=
  mkEnv true true (fun _ _ => Throw wrong_password) (fun _ => None)
        (fun _ => None) uid_of (fun _ => None) (fun _ => None)
        (fun _ => None) (fun _ => None).

(** The six messages a failed sign-in can carry. *)
Definition signIn_messages : list string :=
  [ "Invalid email or password. Please check your credentials and try again.";
    "No account found with this email address.";
    "Incorrect password. Please try again.";
    "Too many failed login attempts. Please try again later.";
    "This account has been disabled. Please contact support.";
    "An error occurred during sign in. Please try again." ].

(** The account and the document the seeder means an entry to have. *)
Definition provisioned_principal (env : Env) (u : InitialUser) : Principal :=
  {| uid := new_uid env (iu_email u);
     p_email := Some (iu_email u);
     displayName := Some (iu_name u) |}.

Definition provisioned_doc (env : Env) (u : InitialUser) : Doc :=
  {| d_id := Some (new_uid env (iu_email u));
     d_name := Some (iu_name u);
     d_email := Some (iu_email u);
     d_role := Some (iu_role u);
     d_createdAt := Some serverTimestamp |}.

(** Events that reach the document store. *)
Definition is_store_call (ev : Event) : bool :=
  match ev with
  | GetDoc _ | SetDoc _ _ _ => true
  | _ => false
  end.

(** The world after the first statement of [signIn] and [signOutUser]. *)
Definition marked (w : World) : World :=
  set_sessionStorage (insert "explicit-auth-action" "true") w.

(** The account of an email as the provider creates it, and as it
    stands once its display name has been set. *)
Definition created_account (env : Env) (email : string) : Principal :=
  {| uid := new_uid env email; p_email := Some email; displayName := None |}.

Definition named_account (env : Env) (email name : string) : Principal :=
  {| uid := new_uid env email; p_email := Some email;
     displayName := Some name |}.

(** The document [signUp] writes. *)
Definition signUp_doc (env : Env) (email name : string) (role : UserRole)
    : Doc :=
  {| d_id := Some (new_uid env email);
     d_name := Some name;
     d_email := Some email;
     d_role := Some role;
     d_createdAt := Some serverTimestamp |}.

(** The profile [signUp] returns. *)
Definition signUp_user (env : Env) (email name : string) (role : UserRole)
    : User :=
  {| user_id := new_uid env email;
     user_name := Some name;
     user_email := Some email;
     user_role := Some role |}.

(** The world once the provider has created the account. *)
Definition registered (env : Env) (email password : string) (w : World)
    : World :=
  set_currentUser (fun _ => Some (created_account env email))
    (set_accounts (insert email (created_account env email))
       (emit (CreateUserWithEmailAndPassword email password) w)).

(** The world once the display name is set as well. *)
Definition renamed (env : Env) (email password name : string) (w : World)
    : World :=
  set_currentUser (fmap (rename (new_uid env email) name))
    (set_accounts (fmap (rename (new_uid env email) name))
       (emit (UpdateProfile (new_uid env email) name)
          (registered env email password w))).

(** The value a call returned, if it returned. *)
Definition fst_return {A} (r : Completion A * World) : option A :=
  match fst r with
  | Return a => Some a
  | Throw _ => None
  end.

(** The ids the provider gives the accounts of a list of entries. *)
Definition uids (env : Env) (l : list InitialUser) : list string :=
  map (fun u => new_uid env (iu_email u)) l.

(** The waits of a trace, in order. *)
Definition delays (t : list Event) : list nat :=
  flat_map (fun ev => match ev with
                      | SetTimeout ms => [ms]
                      | _ => []
                      end) t.

(** Whether a sign-in for the principal [id] comes back through the
    store: the read is served, and the document is there or its write
    is accepted. *)
Definition through_store (env : Env) (w : World) (id : string) : bool :=
  db env && bool_decide (getDoc_fault env id = None)
  && (bool_decide (is_Some (users w !! id))
      || bool_decide (setDoc_fault env id = None)).

(** Whether the services let the seeder get past an entry, read off the
    environment and the accounts of the world the run starts in: the
    provider does not refuse the creation, and either the account is
    registered already or the display name and the document are
    accepted. *)
Definition goes_through (env : Env) (w : World) (u : InitialUser) : bool :=
  bool_decide (createUser_fault env (iu_email u) = None)
  && (bool_decide (is_Some (accounts w !! iu_email u))
      || bool_decide (updateProfile_fault env (new_uid env (iu_email u)) = None)
         && db env
         && bool_decide (setDoc_fault env (new_uid env (iu_email u)) = None)).

(** The error with which the provider refuses an entry, if it does: the
    creation of the account or, for an account it has just created, the
    display name. *)
Definition provider_refusal (env : Env) (w : World) (u : InitialUser)
    : option Error :=
  match createUser_fault env (iu_email u) with
  | Some e => Some e
  | None =>
      if bool_decide (accounts w !! iu_email u = None)
      then updateProfile_fault env (new_uid env (iu_email u))
      else None
  end.

(** The provider rate-limits the display name of one account. *)
Definition name_rate_limited_at (id : string) : Env :=
  mkEnv true true (verdict healthy) (fun _ => None) (fun _ => None) uid_of
        (fun k => if decide (k = id) then Some too_many_requests else None)
        (fun _ => None) (fun _ => None) (fun _ => None).

(** * Properties *)

(** ** Strings *)

Example includes_mid : Js.includes "ops" "chief.ops@x.com" = true.
Proof. reflexivity. Qed.
Example includes_case_sensitive : Js.includes "admin" "Admin@x.com" = false.
Proof. reflexivity. Qed.
Example split_plain : Js.split_at_0 "john@aspcranes.com" = "john".
Proof. reflexivity. Qed.
Example split_no_at : Js.split_at_0 "john" = "john".
Proof. reflexivity. Qed.
Example split_leading_at : Js.split_at_0 "@x" = "".
Proof. reflexivity. Qed.

Lemma fallbackName_first_available p :
  fallbackName p = first_available_name p.
Proof.
  unfold fallbackName, first_available_name, Js.or, Js.or_lit, Js.truthy.
  destruct (displayName p) as [[|c s]|]; destruct (p_email p) as [e|];
    simpl; try reflexivity; destruct (Js.split_at_0 e); reflexivity.
Qed.

(** ** Role inference *)

(** C4. [determineRoleFromEmail] is a total function of a string-or-null
    email that applies the rules in priority order, first match wins: no
    email gives operator, then "admin" gives admin, then "sales" gives
    sales_agent, then "ops" or "manager" gives operations_manager,
    otherwise operator; and an email that contains both "admin" and "ops"
    gives admin. *)
Theorem determineRoleFromEmail_priority (email : option string) :
  determineRoleFromEmail email = inferRole_spec email /\
  (email = None -> determineRoleFromEmail email = operator) /\
  (forall e, email = Some e ->
     Js.includes "admin" e = true ->
     determineRoleFromEmail email = admin) /\
  (forall e, email = Some e ->
     Js.includes "admin" e = false -> Js.includes "sales" e = true ->
     determineRoleFromEmail email = sales_agent) /\
  (forall e, email = Some e ->
     Js.includes "admin" e = false -> Js.includes "sales" e = false ->
     Js.includes "ops" e = true \/ Js.includes "manager" e = true ->
     determineRoleFromEmail email = operations_manager) /\
  (forall e, email = Some e ->
     Js.includes "admin" e = false -> Js.includes "sales" e = false ->
     Js.includes "ops" e = false -> Js.includes "manager" e = false ->
     determineRoleFromEmail email = operator) /\
  (forall e, email = Some e ->
     Js.includes "admin" e = true -> Js.includes "ops" e = true ->
     determineRoleFromEmail email = admin).
Proof.
  assert (Hspec : determineRoleFromEmail email = inferRole_spec email)
    by (destruct email as [[|c e]|]; reflexivity).
  split; [exact Hspec |]. rewrite Hspec.
  split; [now intros -> |].
  split; [intros e -> Ha; cbn; now rewrite Ha |].
  split; [intros e -> Ha Hs; cbn; now rewrite Ha, Hs |].
  split; [intros e -> Ha Hs Hom; cbn; rewrite Ha, Hs;
          destruct Hom as [-> | ->]; [reflexivity | now rewrite orb_true_r] |].
  split; [intros e -> Ha Hs Ho Hm; cbn; now rewrite Ha, Hs, Ho, Hm |].
  intros e -> Ha _. cbn. now rewrite Ha.
Qed.

Lemma determineRoleFromEmail_priority_witness :
  Js.includes "admin" "admin.ops@x.com" = true /\
  Js.includes "ops" "admin.ops@x.com" = true /\
  determineRoleFromEmail (Some "admin.ops@x.com") = admin.
Proof.
  split; [reflexivity | split; [reflexivity |]].
  apply (proj2 (proj2 (proj2 (proj2 (proj2 (proj2
           (determineRoleFromEmail_priority (Some "admin.ops@x.com")))))))
           "admin.ops@x.com"); reflexivity.
Defined.

Example role_of_seeded_emails :
  map (fun u => determineRoleFromEmail (Some (iu_email u))) INITIAL_USERS
  = [admin; operator; operator; operator].
Proof. reflexivity. Qed.

Example role_examples :
  determineRoleFromEmail None = operator /\
  determineRoleFromEmail (Some "") = operator /\
  determineRoleFromEmail (Some "sales.admin@x.com") = admin /\
  determineRoleFromEmail (Some "ops.sales@x.com") = sales_agent /\
  determineRoleFromEmail (Some "manager@x.com") = operations_manager /\
  determineRoleFromEmail (Some "laptops@x.com") = operations_manager /\
  determineRoleFromEmail (Some "Admin@x.com") = operator.
Proof. now repeat split. Qed.

(** ** Sign-in, branch by branch *)

Section SignIn.

Context (env : Env) (w : World) (email password : string) (p : Principal).
Hypothesis Hauth : auth env = true.
Hypothesis Hverdict : verdict env email password = Return p.
Hypothesis Htoken : getIdToken_fault env (uid p) = None.

(** Up to the profile lookup a sign-in with accepted credentials
    is straight-line code. *)
Lemma signIn_unfold :
  signIn env email password w =
  try_catch
    (let* returned := signIn_lookup env p in
     match returned with
     | Some user => ret user
     | None => signIn_fallback env p
     end)
    (fun error => throw (friendly error))
    (authenticated email password p w).
Proof.
  unfold signIn, try_catch, bind at 1 2 3 4, sessionStorage_setItem, effect.
  rewrite Hauth. cbn [negb ret].
  unfold signInWithEmailAndPassword. rewrite Hverdict.
  unfold getIdToken, remote. cbn [uid]. rewrite Htoken.
  reflexivity.
Qed.

Lemma signIn_fallback_run (w1 : World) :
  signIn_fallback env p w1 = (Return (synthesized p), degraded (db env) p w1).
Proof.
  unfold signIn_fallback, degraded, safeDoc.
  destruct (db env); reflexivity.
Qed.

(** PROFILE_FOUND *)
Lemma signIn_found (d : Doc) :
  db env = true -> getDoc_fault env (uid p) = None ->
  users w !! uid p = Some d ->
  signIn env email password w =
  (Return (stored p d), emit (GetDoc (uid p)) (authenticated email password p w)).
Proof.
  intros Hdb Hread Hdoc. rewrite signIn_unfold.
  unfold try_catch, bind, signIn_lookup, try_catch, bind, safeDoc, safeGetDoc, getDoc.
  rewrite Hdb. cbn [negb]. rewrite Hread.
  change (users (authenticated email password p w)) with (users w).
  rewrite Hdoc. reflexivity.
Qed.

(** PROFILE_MISSING, the write goes through. *)
Lemma signIn_missing_written :
  db env = true -> getDoc_fault env (uid p) = None ->
  users w !! uid p = None -> setDoc_fault env (uid p) = None ->
  signIn env email password w =
  (Return (synthesized p),
   store_write (uid p) (synthesized_doc p) false
     (emit (SetDoc (uid p) (synthesized_doc p) false)
        (emit (GetDoc (uid p)) (authenticated email password p w)))).
Proof.
  intros Hdb Hread Hdoc Hwrite. rewrite signIn_unfold.
  unfold try_catch, bind, signIn_lookup, try_catch, bind, safeDoc, safeGetDoc,
    getDoc, safeSetDoc, setDoc, remote.
  rewrite Hdb. cbn [negb]. rewrite Hread.
  change (users (authenticated email password p w)) with (users w).
  rewrite Hdoc, Hwrite. reflexivity.
Qed.

(** PROFILE_MISSING, the write fails: the rethrown error is caught by
    the enclosing [catch (firestoreError)]. *)
Lemma signIn_missing_unwritten (e : Error) :
  db env = true -> getDoc_fault env (uid p) = None ->
  users w !! uid p = None -> setDoc_fault env (uid p) = Some e ->
  signIn env email password w =
  (Return (synthesized p),
   degraded true p
     (emit (SetDoc (uid p) (synthesized_doc p) false)
        (emit (GetDoc (uid p)) (authenticated email password p w)))).
Proof.
  intros Hdb Hread Hdoc Hwrite. rewrite signIn_unfold.
  unfold try_catch at 1, bind at 1.
  assert (Hlookup : signIn_lookup env p (authenticated email password p w) =
    (Return None, emit (SetDoc (uid p) (synthesized_doc p) false)
        (emit (GetDoc (uid p)) (authenticated email password p w)))).
  { unfold signIn_lookup, try_catch, bind, safeDoc, safeGetDoc,
      getDoc, safeSetDoc, setDoc, remote.
    rewrite Hdb. cbn [negb]. rewrite Hread.
    change (users (authenticated email password p w)) with (users w).
    rewrite Hdoc, Hwrite. reflexivity. }
  rewrite Hlookup, signIn_fallback_run, Hdb. reflexivity.
Qed.

(** STORE_UNAVAILABLE, the read is refused by the store. *)
Lemma signIn_read_failed (e : Error) :
  db env = true -> getDoc_fault env (uid p) = Some e ->
  signIn env email password w =
  (Return (synthesized p),
   degraded true p (emit (GetDoc (uid p)) (authenticated email password p w))).
Proof.
  intros Hdb Hread. rewrite signIn_unfold.
  unfold try_catch at 1, bind at 1.
  assert (Hlookup : signIn_lookup env p (authenticated email password p w) =
    (Return None, emit (GetDoc (uid p)) (authenticated email password p w))).
  { unfold signIn_lookup, try_catch, bind, safeDoc, safeGetDoc, getDoc.
    rewrite Hdb. cbn [negb]. rewrite Hread. reflexivity. }
  rewrite Hlookup, signIn_fallback_run, Hdb. reflexivity.
Qed.

(** STORE_UNAVAILABLE, there is no store handle to read through. *)
Lemma signIn_no_store :
  db env = false ->
  signIn env email password w =
  (Return (synthesized p), degraded false p (authenticated email password p w)).
Proof.
  intros Hdb. rewrite signIn_unfold.
  unfold try_catch at 1, bind at 1.
  assert (Hlookup : signIn_lookup env p (authenticated email password p w) =
    (Return None, authenticated email password p w)).
  { unfold signIn_lookup, try_catch, bind, safeDoc, safeGetDoc.
    rewrite Hdb. reflexivity. }
  rewrite Hlookup, signIn_fallback_run, Hdb. reflexivity.
Qed.

End SignIn.

(** C5 (amended). When the store read of a sign-in succeeds and finds a
    document, the returned profile carries the name, email and role of
    that document as stored and the principal's id, which is the id the
    document is stored under and its [id] field whenever the document
    keeps the id convention; nothing is synthesized, no write is issued,
    and the sign-in ends there: the trace stops at the read and only the
    explicit-action marker has been set. *)
Theorem signIn_found_returns_stored env w email password p d :
  auth env = true -> verdict env email password = Return p ->
  getIdToken_fault env (uid p) = None ->
  db env = true -> getDoc_fault env (uid p) = None ->
  users w !! uid p = Some d ->
  exists user w',
    signIn env email password w = (Return user, w') /\
    user_id user = uid p /\
    user_name user = d_name d /\ user_email user = d_email d /\
    user_role user = d_role d /\
    (d_id d = Some (uid p) -> d_id d = Some (user_id user)) /\
    users w' = users w /\ inflight w' = inflight w /\
    persistentAuth w' = persistentAuth w /\
    sessionStorage w' = <["explicit-auth-action" := "true"]> (sessionStorage w) /\
    trace w' = (trace w ++ [SignInWithEmailAndPassword email password;
                            GetIdToken (uid p); GetDoc (uid p)])%list.
Proof.
  intros Hauth Hverdict Htoken Hdb Hread Hdoc.
  eexists _, _. split.
  { apply signIn_found; eassumption. }
  cbn. repeat split; try reflexivity.
  - auto.
  - now rewrite <- !app_assoc.
Qed.

Lemma signIn_found_returns_stored_witness :
  let p := sample_principal "admin@aspcranes.com" in
  let d := {| d_id := Some "uid:admin@aspcranes.com";
              d_name := Some "Admin User";
              d_email := Some "admin@aspcranes.com";
              d_role := Some admin;
              d_createdAt := Some serverTimestamp |} in
  let w := seeded_world in
  exists user w',
    signIn healthy "admin@aspcranes.com" "admin123" w = (Return user, w') /\
    user_id user = uid p /\
    user_name user = d_name d /\ user_email user = d_email d /\
    user_role user = d_role d /\
    (d_id d = Some (uid p) -> d_id d = Some (user_id user)) /\
    users w' = users w /\ inflight w' = inflight w /\
    persistentAuth w' = persistentAuth w /\
    sessionStorage w' = <["explicit-auth-action" := "true"]> (sessionStorage w) /\
    trace w' = (trace w ++ [SignInWithEmailAndPassword "admin@aspcranes.com"
                              "admin123";
                            GetIdToken (uid p); GetDoc (uid p)])%list.
Proof.
  apply (signIn_found_returns_stored healthy seeded_world
           "admin@aspcranes.com" "admin123"
           (sample_principal "admin@aspcranes.com"));
    [reflexivity .. | vm_compute; reflexivity].
Defined.

(** C5, as stated, fails on the id: a document stored under the
    principal's id whose [id] field says otherwise is returned with the
    principal's id, not the stored one. *)
Lemma signIn_found_id_counterexample :
  exists d user w',
    users relabelled_world !! "uid:admin@aspcranes.com" = Some d /\
    signIn healthy "admin@aspcranes.com" "admin123" relabelled_world
      = (Return user, w') /\
    d_id d = Some "uid:mike@aspcranes.com" /\
    user_id user = "uid:admin@aspcranes.com" /\
    d_id d <> Some (user_id user).
Proof.
  eexists _, _, _. split; [vm_compute; reflexivity |].
  split.
  { apply (signIn_found healthy relabelled_world _ _
             (sample_principal "admin@aspcranes.com"));
      [reflexivity .. | vm_compute; reflexivity]. }
  cbn. repeat split; discriminate.
Qed.

(** C6. When a sign-in finds the store reachable and no document for the
    principal, and the write succeeds, the returned profile has the role
    inferred from the principal's email and as name the first available
    of display name, local part of the email and "User"; afterwards the
    store holds, under the principal's id, a document with exactly that
    data. *)
Theorem signIn_missing_creates_profile env w email password p :
  auth env = true -> verdict env email password = Return p ->
  getIdToken_fault env (uid p) = None ->
  db env = true -> getDoc_fault env (uid p) = None ->
  users w !! uid p = None ->
  setDoc_fault env (uid p) = None ->
  exists user w',
    signIn env email password w = (Return user, w') /\
    user_id user = uid p /\
    user_role user = Some (determineRoleFromEmail (p_email p)) /\
    user_name user = Some (first_available_name p) /\
    users w' !! uid p =
      Some {| d_id := Some (user_id user);
              d_name := user_name user;
              d_email := user_email user;
              d_role := user_role user;
              d_createdAt := Some serverTimestamp |} /\
    (forall k, k <> uid p -> users w' !! k = users w !! k).
Proof.
  intros Hauth Hverdict Htoken Hdb Hread Hdoc Hwrite.
  eexists _, _. split.
  { apply signIn_missing_written; eassumption. }
  cbn. rewrite fallbackName_first_available.
  repeat split; try reflexivity.
  - rewrite lookup_insert_eq. unfold synthesized_doc.
    now rewrite fallbackName_first_available.
  - intros k Hk. now rewrite lookup_insert_ne.
Qed.

Lemma signIn_missing_creates_profile_witness :
  let p := sample_principal "sales.lee@aspcranes.com" in
  exists user w',
    signIn healthy "sales.lee@aspcranes.com" "pw" empty_world = (Return user, w') /\
    user_id user = uid p /\
    user_role user = Some (determineRoleFromEmail (p_email p)) /\
    user_name user = Some (first_available_name p) /\
    users w' !! uid p =
      Some {| d_id := Some (user_id user);
              d_name := user_name user;
              d_email := user_email user;
              d_role := user_role user;
              d_createdAt := Some serverTimestamp |} /\
    (forall k, k <> uid p -> users w' !! k = users empty_world !! k).
Proof.
  apply (signIn_missing_creates_profile healthy empty_world
           "sales.lee@aspcranes.com" "pw"
           (sample_principal "sales.lee@aspcranes.com")); reflexivity.
Defined.

Example signIn_missing_sales_lee :
  fst (signIn healthy "sales.lee@aspcranes.com" "pw" empty_world) =
  Return {| user_id := "uid:sales.lee@aspcranes.com";
            user_name := Some "sales.lee";
            user_email := Some "sales.lee@aspcranes.com";
            user_role := Some sales_agent |}.
Proof. vm_compute. reflexivity. Qed.

(** C1, on the code: when the store read of a sign-in succeeds with no
    document and the write of the synthesized profile fails, the sign-in
    does not fail.  The rethrown error is caught by the handler of the
    enclosing [try]; the sign-in goes down the degraded path, issues the
    write a second time without awaiting it, and returns the synthesized
    profile. *)
Theorem signIn_missing_write_failure_swallowed env w email password p e :
  auth env = true -> verdict env email password = Return p ->
  getIdToken_fault env (uid p) = None ->
  db env = true -> getDoc_fault env (uid p) = None ->
  users w !! uid p = None ->
  setDoc_fault env (uid p) = Some e ->
  exists w',
    signIn env email password w = (Return (synthesized p), w') /\
    inflight w' = (inflight w ++ [(uid p, synthesized_doc p)])%list /\
    sessionStorage w' !! "user-authenticated-this-session" = Some "true" /\
    trace w' = (trace w ++ [SignInWithEmailAndPassword email password;
                            GetIdToken (uid p); GetDoc (uid p);
                            SetDoc (uid p) (synthesized_doc p) false;
                            SetDoc (uid p) (synthesized_doc p) false])%list.
Proof.
  intros Hauth Hverdict Htoken Hdb Hread Hdoc Hwrite.
  eexists. split.
  { eapply signIn_missing_unwritten; eassumption. }
  cbn. repeat split.
  - now rewrite lookup_insert_eq.
  - now rewrite <- !app_assoc.
Qed.

Lemma signIn_missing_write_failure_swallowed_witness :
  exists w',
    signIn read_only_store "john@aspcranes.com" "sales123" empty_world =
      (Return {| user_id := "uid:john@aspcranes.com";
                 user_name := Some "john";
                 user_email := Some "john@aspcranes.com";
                 user_role := Some operator |}, w') /\
    inflight w' = [("uid:john@aspcranes.com",
                    synthesized_doc (sample_principal "john@aspcranes.com"))].
Proof.
  destruct (signIn_missing_write_failure_swallowed read_only_store empty_world
              "john@aspcranes.com" "sales123"
              (sample_principal "john@aspcranes.com") permission_denied)
    as (w' & Hrun & Hinflight & _); try reflexivity.
  exists w'. split; [exact Hrun | exact Hinflight].
Defined.

(** ** The degraded path *)

Lemma read_throws_cases env id w e :
  fst (safeGetDoc env (safeDoc env id) w) = Throw e ->
  db env = false \/ (db env = true /\ getDoc_fault env id = Some e).
Proof.
  unfold safeGetDoc, safeDoc, getDoc.
  destruct (db env); cbn; [| now left].
  destruct (getDoc_fault env id) as [e'|]; cbn; [| discriminate].
  intros H. injection H as H. subst e'. now right.
Qed.

Lemma settle_failed env w id data :
  inflight w = [(id, data)] -> is_Some (background_fault env id) ->
  users (settle env w) = users w.
Proof.
  intros Hin [e He]. unfold settle. rewrite Hin. cbn.
  unfold settle_one. cbn. now rewrite He.
Qed.

Lemma settle_landed env w id data :
  inflight w = [(id, data)] -> background_fault env id = None ->
  users (settle env w) = <[id := data]> (users w).
Proof.
  intros Hin He. unfold settle. rewrite Hin. cbn.
  unfold settle_one. cbn. now rewrite He.
Qed.

(** C2 (amended). Whenever the provider accepts the credentials and the
    store read of the sign-in throws, the sign-in still returns the
    profile synthesized from the principal's data and role inference.
    With a store handle a write of that profile is issued and not
    awaited; without one (the read threw for want of a document
    reference) no write is issued.  The fate of the detached write
    changes neither the returned value nor raises anything: a failed one
    leaves the store as it was, a successful one lands the document. *)
Theorem signIn_store_unavailable env w email password p e :
  auth env = true -> verdict env email password = Return p ->
  getIdToken_fault env (uid p) = None ->
  fst (safeGetDoc env (safeDoc env (uid p))
         (authenticated email password p w)) = Throw e ->
  exists w',
    signIn env email password w = (Return (synthesized p), w') /\
    (if db env
     then inflight w' = (inflight w ++ [(uid p, synthesized_doc p)])%list /\
          In (SetDoc (uid p) (synthesized_doc p) false) (trace w')
     else inflight w' = inflight w /\
          trace w' = (trace w ++ [SignInWithEmailAndPassword email password;
                                  GetIdToken (uid p)])%list) /\
    (forall bf,
       signIn (with_background bf env) email password w
       = (Return (synthesized p), w')) /\
    (forall bf, inflight w = [] -> is_Some (bf (uid p)) ->
       users (settle (with_background bf env) w') = users w) /\
    (forall bf, inflight w = [] -> db env = true -> bf (uid p) = None ->
       users (settle (with_background bf env) w')
       = <[uid p := synthesized_doc p]> (users w)).
Proof.
  intros Hauth Hverdict Htoken Hthrow.
  destruct (read_throws_cases _ _ _ _ Hthrow) as [Hdb | [Hdb Hread]].
  - eexists. split; [now apply signIn_no_store |].
    rewrite Hdb. cbn. repeat split.
    + now rewrite <- !app_assoc.
    + intros bf. now apply signIn_no_store.
    + intros bf Hin _. unfold settle. cbn. now rewrite Hin.
    + intros bf _ Hdb' _. congruence.
  - eexists. split; [eapply signIn_read_failed; eassumption |].
    rewrite Hdb.
    split; [split; [reflexivity |] |].
    { cbn. rewrite !in_app_iff. right. now left. }
    split; [intros bf; eapply signIn_read_failed; eassumption |].
    split; intros bf Hin.
    + intros Hbf.
      erewrite settle_failed; [reflexivity | cbn; now rewrite Hin | exact Hbf].
    + intros _ Hbf.
      erewrite settle_landed; [reflexivity | cbn; now rewrite Hin | exact Hbf].
Qed.

Lemma signIn_store_unavailable_witness :
  let p := sample_principal "john@aspcranes.com" in
  exists w',
    signIn store_down "john@aspcranes.com" "sales123" empty_world
      = (Return (synthesized p), w') /\
    (if db store_down
     then inflight w' = (inflight empty_world ++ [(uid p, synthesized_doc p)])%list /\
          In (SetDoc (uid p) (synthesized_doc p) false) (trace w')
     else inflight w' = inflight empty_world /\
          trace w' = (trace empty_world ++
                      [SignInWithEmailAndPassword "john@aspcranes.com" "sales123";
                       GetIdToken (uid p)])%list) /\
    (forall bf,
       signIn (with_background bf store_down) "john@aspcranes.com" "sales123"
              empty_world
       = (Return (synthesized p), w')) /\
    (forall bf, inflight empty_world = [] -> is_Some (bf (uid p)) ->
       users (settle (with_background bf store_down) w') = users empty_world) /\
    (forall bf, inflight empty_world = [] -> db store_down = true ->
       bf (uid p) = None ->
       users (settle (with_background bf store_down) w')
       = <[uid p := synthesized_doc p]> (users empty_world)).
Proof.
  apply (signIn_store_unavailable store_down empty_world
           "john@aspcranes.com" "sales123"
           (sample_principal "john@aspcranes.com") unavailable); reflexivity.
Defined.

(** C2, as stated, fails on the write: with no store handle the read
    throws, the sign-in succeeds, and no write is attempted. *)
Lemma signIn_no_store_counterexample :
  let p := sample_principal "john@aspcranes.com" in
  verdict no_store "john@aspcranes.com" "sales123" = Return p /\
  fst (safeGetDoc no_store (safeDoc no_store (uid p))
         (authenticated "john@aspcranes.com" "sales123" p empty_world))
    = Throw (new_Error "Document reference is null") /\
  exists w',
    signIn no_store "john@aspcranes.com" "sales123" empty_world
      = (Return (synthesized p), w') /\
    inflight w' = [] /\
    Forall (fun ev => is_write ev = false) (trace w').
Proof.
  cbn zeta. split; [reflexivity | split; [reflexivity |]].
  eexists. split; [vm_compute; reflexivity |].
  split; [reflexivity |].
  repeat constructor.
Qed.

(** ** The current principal *)

Lemma getCurrentUser_no_principal env w :
  auth env = false \/ currentUser w = None ->
  getCurrentUser env w = (Return None, w).
Proof.
  unfold getCurrentUser, bind, auth_currentUser.
  intros [-> | Hnone]; [reflexivity |].
  destruct (auth env); [| reflexivity]. cbn. now rewrite Hnone.
Qed.

Lemma getCurrentUser_no_store env w p :
  auth env = true -> currentUser w = Some p -> db env = false ->
  getCurrentUser env w = (Return (Some (synthesized p)), w).
Proof.
  intros Hauth Hp Hdb.
  unfold getCurrentUser, bind, auth_currentUser, try_catch, safeDoc.
  rewrite Hauth. cbn. now rewrite Hp, Hdb.
Qed.

Lemma getCurrentUser_read env w p :
  auth env = true -> currentUser w = Some p -> db env = true ->
  getCurrentUser env w =
  (match getDoc_fault env (uid p) with
   | Some e => Throw e
   | None =>
       match users w !! uid p with
       | Some d => Return (Some (stored p d))
       | None => Return (Some (synthesized p))
       end
   end, emit (GetDoc (uid p)) w).
Proof.
  intros Hauth Hp Hdb.
  unfold getCurrentUser, bind, auth_currentUser, try_catch, safeDoc,
    safeGetDoc, getDoc.
  rewrite Hauth. cbn. rewrite Hp, Hdb. cbn.
  destruct (getDoc_fault env (uid p)); [reflexivity |].
  destruct (users w !! uid p); reflexivity.
Qed.

(** C3 (amended). [getCurrentUser] returns null when no principal is
    authenticated.  For an authenticated principal it returns the
    profile read off the stored document when the read finds one, and
    the profile synthesized from the principal's data and role inference
    when the read finds none or when there is no store handle; when the
    store read itself fails, the error is rethrown to the caller.  In
    every case the store, the detached writes, the session markers and
    all other state are left as they were, and at most the read is
    issued. *)
Theorem getCurrentUser_resolution env w :
  (same_state (snd (getCurrentUser env w)) w /\
   exists t, trace (snd (getCurrentUser env w)) = (trace w ++ t)%list /\
             Forall (fun ev => is_write ev = false) t) /\
  (auth env = false \/ currentUser w = None ->
   fst (getCurrentUser env w) = Return None) /\
  (forall p, auth env = true -> currentUser w = Some p ->
     (forall d, db env = true -> getDoc_fault env (uid p) = None ->
                users w !! uid p = Some d ->
                fst (getCurrentUser env w) = Return (Some (stored p d))) /\
     (db env = true -> getDoc_fault env (uid p) = None ->
      users w !! uid p = None ->
      fst (getCurrentUser env w) = Return (Some (synthesized p))) /\
     (db env = false ->
      fst (getCurrentUser env w) = Return (Some (synthesized p))) /\
     (forall e, db env = true -> getDoc_fault env (uid p) = Some e ->
                fst (getCurrentUser env w) = Throw e)).
Proof.
  split; [| split].
  - destruct (auth env) eqn:Hauth;
      [destruct (currentUser w) as [p|] eqn:Hp;
       [destruct (db env) eqn:Hdb |] |].
    + rewrite (getCurrentUser_read env w p Hauth Hp Hdb). cbn.
      split; [now repeat split |].
      exists [GetDoc (uid p)]. split; [reflexivity | now repeat constructor].
    + rewrite (getCurrentUser_no_store env w p Hauth Hp Hdb). cbn.
      split; [now repeat split |].
      exists []. split; [now rewrite app_nil_r | constructor].
    + rewrite getCurrentUser_no_principal by now right. cbn.
      split; [now repeat split |].
      exists []. split; [now rewrite app_nil_r | constructor].
    + rewrite getCurrentUser_no_principal by now left. cbn.
      split; [now repeat split |].
      exists []. split; [now rewrite app_nil_r | constructor].
  - intros H. now rewrite getCurrentUser_no_principal.
  - intros p Hauth Hp. repeat split.
    + intros d Hdb Hread Hdoc.
      rewrite (getCurrentUser_read env w p Hauth Hp Hdb). cbn.
      now rewrite Hread, Hdoc.
    + intros Hdb Hread Hdoc.
      rewrite (getCurrentUser_read env w p Hauth Hp Hdb). cbn.
      now rewrite Hread, Hdoc.
    + intros Hdb. now rewrite (getCurrentUser_no_store env w p Hauth Hp Hdb).
    + intros e Hdb Hread.
      rewrite (getCurrentUser_read env w p Hauth Hp Hdb). cbn.
      now rewrite Hread.
Qed.

Lemma getCurrentUser_resolution_witness :
  let p := sample_principal "sara@aspcranes.com" in
  let w := set_currentUser (fun _ => Some p) seeded_world in
  fst (getCurrentUser healthy w) =
    Return (Some {| user_id := "uid:sara@aspcranes.com";
                    user_name := Some "Sara Manager";
                    user_email := Some "sara@aspcranes.com";
                    user_role := Some operations_manager |}) /\
  fst (getCurrentUser store_down w) = Throw unavailable /\
  fst (getCurrentUser no_store w) = Return (Some (synthesized p)).
Proof.
  cbn zeta.
  pose (p := sample_principal "sara@aspcranes.com").
  pose (w := set_currentUser (fun _ => Some p) seeded_world).
  split; [| split].
  - apply (proj1 (proj2 (proj2 (getCurrentUser_resolution healthy w))
                   p eq_refl eq_refl)
             {| d_id := Some "uid:sara@aspcranes.com";
                d_name := Some "Sara Manager";
                d_email := Some "sara@aspcranes.com";
                d_role := Some operations_manager;
                d_createdAt := Some serverTimestamp |});
      vm_compute; reflexivity.
  - apply (proj2 (proj2 (proj2 (proj2 (proj2 (getCurrentUser_resolution store_down w))
                   p eq_refl eq_refl)))); reflexivity.
  - apply (proj1 (proj2 (proj2 (proj2 (proj2 (getCurrentUser_resolution no_store w))
                   p eq_refl eq_refl)))); reflexivity.
Defined.

(** C3, as stated, fails on a failing read: the error comes back to the
    caller, not a synthesized profile. *)
Lemma getCurrentUser_read_failure_counterexample :
  let p := sample_principal "john@aspcranes.com" in
  let w := set_currentUser (fun _ => Some p) empty_world in
  auth store_down = true /\ currentUser w = Some p /\
  getDoc_fault store_down (uid p) = Some unavailable /\
  fst (getCurrentUser store_down w) = Throw unavailable /\
  fst (getCurrentUser store_down w) <> Return (Some (synthesized p)).
Proof.
  cbn zeta. repeat split; try reflexivity.
  vm_compute. discriminate.
Qed.

(** ** Profile update *)

Lemma updateUserProfile_run env w userId updates :
  db env = true ->
  updateUserProfile env userId updates w =
  match setDoc_fault env userId with
  | Some e => (Throw e, emit (SetDoc userId (partial_doc updates) true) w)
  | None =>
      let w1 := store_write userId (partial_doc updates) true
                  (emit (SetDoc userId (partial_doc updates) true) w) in
      (match getDoc_fault env userId with
       | Some e => Throw e
       | None =>
           let userData := written true (partial_doc updates)
                             (users w !! userId) in
           Return {| user_id := userId;
                     user_name := d_name userData;
                     user_email := d_email userData;
                     user_role := d_role userData |}
       end, emit (GetDoc userId) w1)
  end.
Proof.
  intros Hdb.
  unfold updateUserProfile, try_catch, bind, safeDoc, safeSetDoc, safeGetDoc,
    setDoc, getDoc, remote.
  rewrite Hdb. cbn [negb ret].
  destruct (setDoc_fault env userId); [reflexivity |].
  destruct (getDoc_fault env userId); [reflexivity |].
  cbn. now rewrite lookup_insert_eq.
Qed.

Lemma updateUserProfile_no_store env w userId updates :
  db env = false ->
  updateUserProfile env userId updates w =
  (Throw (new_Error
     "Failed to create document reference: Firestore not initialized"), w).
Proof.
  intros Hdb. unfold updateUserProfile, try_catch, bind, safeDoc.
  now rewrite Hdb.
Qed.

(** C7. On an existing profile document [updateUserProfile] merges: the
    document left in the store is the old one with the supplied fields
    overwritten, every field absent from the partial (and the creation
    time) keeps its stored value, no other document changes, the stored
    document is never replaced by the partial alone, and the profile
    returned is read off the merged document.  With only a role
    supplied, name and email stay and the role changes. *)
Theorem updateUserProfile_merges env w userId updates old :
  users w !! userId = Some old ->
  let m := merge_doc old (partial_doc updates) in
  let r := fst (updateUserProfile env userId updates w) in
  let w' := snd (updateUserProfile env userId updates w) in
  (* what the merged document holds *)
  (d_id m = match upd_id updates with Some v => Some v | None => d_id old end /\
   d_name m = match upd_name updates with Some v => Some v | None => d_name old end /\
   d_email m = match upd_email updates with Some v => Some v | None => d_email old end /\
   d_role m = match upd_role updates with Some v => Some v | None => d_role old end /\
   d_createdAt m = d_createdAt old) /\
  (* the store holds the old or the merged document, others untouched *)
  (users w' = users w \/ users w' = <[userId := m]> (users w)) /\
  (forall k, k <> userId -> users w' !! k = users w !! k) /\
  (* a returned profile is the merged document read back *)
  (forall user, r = Return user ->
     users w' !! userId = Some m /\
     user = {| user_id := userId; user_name := d_name m;
               user_email := d_email m; user_role := d_role m |}) /\
  (* and it is returned whenever the store serves the write and the read *)
  (db env = true -> setDoc_fault env userId = None ->
   getDoc_fault env userId = None ->
   r = Return {| user_id := userId; user_name := d_name m;
                 user_email := d_email m; user_role := d_role m |}) /\
  (* only a role supplied *)
  (forall role, updates = {| upd_id := None; upd_name := None;
                            upd_email := None; upd_role := Some role |} ->
     d_name m = d_name old /\ d_email m = d_email old /\
     d_id m = d_id old /\ d_role m = Some role).
Proof.
  intros Hold m r w'. split; [| split; [| split; [| split; [| split]]]].
  - now repeat split.
  - subst w'. destruct (db env) eqn:Hdb.
    + rewrite updateUserProfile_run by assumption.
      destruct (setDoc_fault env userId); [now left |].
      right. cbn. now rewrite Hold.
    + rewrite updateUserProfile_no_store by assumption. now left.
  - intros k Hk. subst w'. destruct (db env) eqn:Hdb.
    + rewrite updateUserProfile_run by assumption.
      destruct (setDoc_fault env userId); [reflexivity |].
      cbn. now rewrite lookup_insert_ne.
    + now rewrite updateUserProfile_no_store.
  - intros user. subst r w'. destruct (db env) eqn:Hdb.
    + rewrite updateUserProfile_run by assumption.
      destruct (setDoc_fault env userId); [discriminate |].
      cbn. destruct (getDoc_fault env userId); [discriminate |].
      rewrite Hold. cbn. intros [= <-].
      split; [now rewrite lookup_insert_eq | reflexivity].
    + now rewrite updateUserProfile_no_store.
  - intros Hdb Hwrite Hread. subst r.
    rewrite updateUserProfile_run by assumption.
    rewrite Hwrite. cbn. now rewrite Hread, Hold.
  - intros role ->. now repeat split.
Qed.

Lemma updateUserProfile_merges_witness :
  let old := {| d_id := Some "uid:mike@aspcranes.com";
                d_name := Some "Mike Operator";
                d_email := Some "mike@aspcranes.com";
                d_role := Some operator;
                d_createdAt := Some serverTimestamp |} in
  let updates := {| upd_id := None; upd_name := None; upd_email := None;
                    upd_role := Some admin |} in
  users seeded_world !! "uid:mike@aspcranes.com" = Some old /\
  fst (updateUserProfile healthy "uid:mike@aspcranes.com" updates seeded_world)
  = Return {| user_id := "uid:mike@aspcranes.com";
              user_name := Some "Mike Operator";
              user_email := Some "mike@aspcranes.com";
              user_role := Some admin |}.
Proof.
  cbn zeta.
  assert (Hold : users seeded_world !! "uid:mike@aspcranes.com" =
                 Some {| d_id := Some "uid:mike@aspcranes.com";
                         d_name := Some "Mike Operator";
                         d_email := Some "mike@aspcranes.com";
                         d_role := Some operator;
                         d_createdAt := Some serverTimestamp |})
    by (vm_compute; reflexivity).
  split; [exact Hold |].
  apply (proj1 (proj2 (proj2 (proj2 (proj2
           (updateUserProfile_merges healthy seeded_world
              "uid:mike@aspcranes.com"
              {| upd_id := None; upd_name := None; upd_email := None;
                 upd_role := Some admin |} _ Hold)))))); reflexivity.
Defined.

(** ** The seeder *)

Lemma emits_nil w : emits [] w = w.
Proof. destruct w. unfold emits. cbn. now rewrite app_nil_r. Qed.

Lemma emits_emits t1 t2 w : emits t2 (emits t1 w) = emits (t1 ++ t2) w.
Proof. unfold emits. cbn. now rewrite app_assoc. Qed.

Lemma same_state_emits t w : same_state (emits t w) w.
Proof. now repeat split. Qed.

Lemma attempted_app t1 t2 :
  attempted (t1 ++ t2) = (attempted t1 ++ attempted t2)%list.
Proof. unfold attempted. apply flat_map_app. Qed.

Lemma skipped_no_write l : Forall (fun ev => is_write ev = false) (skipped l).
Proof.
  induction l as [|u l IH]; cbn; [constructor |].
  now repeat constructor.
Qed.

Section Seeder.

Context (env : Env).

(** With the sticky flag set an iteration breaks at once. *)
Lemma seed_step_flagged u w :
  localStorage w !! rate_limit_flag = Some "true" ->
  seed_step env u w = (Return Break, w).
Proof.
  intros Hflag.
  unfold seed_step, try_catch, bind, localStorage_getItem.
  fold rate_limit_flag. rewrite Hflag.
  now rewrite bool_decide_eq_true_2.
Qed.

Lemma setupUsers_flagged l w :
  localStorage w !! rate_limit_flag = Some "true" ->
  setupUsers env l w = (Return tt, w).
Proof.
  intros Hflag. unfold setupUsers, try_catch, bind.
  destruct l as [|u l]; [reflexivity |].
  cbn [for_of]. unfold bind. now rewrite seed_step_flagged.
Qed.

(** Without it, an iteration is decided by how [createInitialUser]
    completes. *)
Lemma seed_step_unflagged u w :
  localStorage w !! rate_limit_flag <> Some "true" ->
  seed_step env u w =
  match createInitialUser env (iu_email u) (iu_password u) (iu_name u)
          (iu_role u) w with
  | (Return _, w1) => (Return Next, emit (SetTimeout 1500) w1)
  | (Throw e, w1) =>
      if code_is "auth/too-many-requests" e
      then (Return Break, set_localStorage (insert rate_limit_flag "true") w1)
      else if negb (code_is "auth/email-already-in-use" e)
           then (Throw e, w1)
           else (Return Next, w1)
  end.
Proof.
  intros Hflag.
  unfold seed_step, try_catch at 1, bind at 1, localStorage_getItem.
  fold rate_limit_flag.
  rewrite bool_decide_eq_false_2 by assumption.
  unfold bind at 1.
  destruct (createInitialUser env (iu_email u) (iu_password u) (iu_name u)
              (iu_role u) w) as [[r|e] w1]; [reflexivity |].
  destruct (code_is "auth/too-many-requests" e); [reflexivity |].
  destruct (code_is "auth/email-already-in-use" e); reflexivity.
Qed.

(** [createInitialUser] asks the provider once for its email and
    leaves the local storage alone, however it completes. *)
Lemma createInitialUser_frame email password name role w :
  let w1 := snd (createInitialUser env email password name role w) in
  localStorage w1 = localStorage w /\
  attempted (trace w1) = (attempted (trace w) ++ [email])%list.
Proof.
  unfold createInitialUser, try_catch, bind, createUserWithEmailAndPassword,
    updateProfile, doc, setDoc, remote.
  destruct (auth env); cbn [negb];
    [destruct (createUser_fault env email) as [e|];
     [| destruct (accounts w !! email);
        [| cbn [uid];
           destruct (updateProfile_fault env (new_uid env email)) as [e|];
           [| destruct (db env); cbn [ret throw];
              [destruct (setDoc_fault env (new_uid env email)) as [e|] |]]]] |];
    repeat match goal with
           | |- context [if code_is ?c ?e then _ else _] =>
               destruct (code_is c e)
           end;
    cbn -[attempted]; (split; [reflexivity |]);
    rewrite !attempted_app; cbn; rewrite <- ?app_assoc; reflexivity.
Qed.

(** An iteration that hands over to the next entry has asked the
    provider exactly once, for its own entry. *)
Lemma seed_step_next u w w1 :
  localStorage w !! rate_limit_flag <> Some "true" ->
  seed_step env u w = (Return Next, w1) ->
  localStorage w1 = localStorage w /\
  attempted (trace w1) = (attempted (trace w) ++ [iu_email u])%list.
Proof.
  intros Hflag. rewrite seed_step_unflagged by assumption.
  pose proof (createInitialUser_frame (iu_email u) (iu_password u)
                (iu_name u) (iu_role u) w) as Hframe.
  destruct (createInitialUser env (iu_email u) (iu_password u) (iu_name u)
              (iu_role u) w) as [[r|e] w2]; cbn in Hframe.
  - intros [= <-]. cbn. destruct Hframe as [Hls Hatt]. split; [exact Hls |].
    rewrite attempted_app, Hatt. cbn. now rewrite app_nil_r.
  - destruct (code_is "auth/too-many-requests" e); [discriminate |].
    destruct (code_is "auth/email-already-in-use" e); cbn; [| discriminate].
    intros [= <-]. exact Hframe.
Qed.

Lemma for_of_app pre post w w1 :
  for_of env pre w = (Return Next, w1) ->
  for_of env (pre ++ post) w = for_of env post w1.
Proof.
  revert w. induction pre as [|u pre IH]; intros w.
  - cbn. now intros [= <-].
  - cbn [for_of app]. unfold bind.
    destruct (seed_step env u w) as [[[|]|e] w2]; try discriminate.
    apply IH.
Qed.

Lemma for_of_next pre w w1 :
  localStorage w !! rate_limit_flag <> Some "true" ->
  for_of env pre w = (Return Next, w1) ->
  localStorage w1 = localStorage w /\
  attempted (trace w1) = (attempted (trace w) ++ map iu_email pre)%list.
Proof.
  revert w. induction pre as [|u pre IH]; intros w Hflag.
  - cbn. intros [= <-]. now rewrite app_nil_r.
  - cbn [for_of]. unfold bind.
    destruct (seed_step env u w) as [[[|]|e] w2] eqn:Hstep; try discriminate.
    intros Hrest.
    destruct (seed_step_next _ _ _ Hflag Hstep) as [Hls Hatt].
    destruct (IH w2) as [Hls' Hatt']; [now rewrite Hls | exact Hrest |].
    split; [congruence |].
    rewrite Hatt', Hatt. cbn. now rewrite <- app_assoc.
Qed.

(** The iteration that meets the rate limit sets the flag and leaves
    the loop; nothing is asked for the entries behind it. *)
Lemma setupUsers_rate_limited pre u post w w1 wk e :
  localStorage w !! rate_limit_flag <> Some "true" ->
  for_of env pre w = (Return Next, w1) ->
  createInitialUser env (iu_email u) (iu_password u) (iu_name u) (iu_role u) w1
    = (Throw e, wk) ->
  code e = Some "auth/too-many-requests" ->
  setupUsers env (pre ++ u :: post) w
    = (Return tt, set_localStorage (insert rate_limit_flag "true") wk) /\
  attempted (trace wk)
    = (attempted (trace w) ++ map iu_email (pre ++ [u]))%list.
Proof.
  intros Hflag Hpre Hcreate Hcode.
  destruct (for_of_next _ _ _ Hflag Hpre) as [Hls Hatt].
  assert (Hflag1 : localStorage w1 !! rate_limit_flag <> Some "true")
    by now rewrite Hls.
  split.
  - unfold setupUsers, try_catch, bind at 1.
    rewrite (for_of_app _ _ _ _ Hpre). cbn [for_of]. unfold bind.
    rewrite seed_step_unflagged by assumption. rewrite Hcreate.
    unfold code_is. rewrite Hcode.
    now rewrite bool_decide_eq_true_2.
  - pose proof (createInitialUser_frame (iu_email u) (iu_password u)
                  (iu_name u) (iu_role u) w1) as [_ Hk].
    rewrite Hcreate in Hk. cbn in Hk.
    rewrite Hk, Hatt, map_app. cbn. now rewrite <- app_assoc.
Qed.

End Seeder.

(** Four entries, the provider rate-limits the creation of the second:
    the first is created, the second halts the run, the last two are
    never asked for. *)
Example rate_limit_at_second_entry :
  let w' := snd (setupInitialUsers (rate_limited_at "john@aspcranes.com")
                   empty_world) in
  fst (setupInitialUsers (rate_limited_at "john@aspcranes.com") empty_world)
    = Return tt /\
  attempted (trace w') = ["admin@aspcranes.com"; "john@aspcranes.com"] /\
  accounts w' !! "admin@aspcranes.com"
    = Some {| uid := "uid:admin@aspcranes.com";
              p_email := Some "admin@aspcranes.com";
              displayName := Some "Admin User" |} /\
  users w' !! "uid:admin@aspcranes.com"
    = Some {| d_id := Some "uid:admin@aspcranes.com";
              d_name := Some "Admin User";
              d_email := Some "admin@aspcranes.com";
              d_role := Some admin;
              d_createdAt := Some serverTimestamp |} /\
  accounts w' !! "john@aspcranes.com" = None /\
  accounts w' !! "sara@aspcranes.com" = None /\
  accounts w' !! "mike@aspcranes.com" = None /\
  users w' !! "uid:john@aspcranes.com" = None /\
  users w' !! "uid:sara@aspcranes.com" = None /\
  users w' !! "uid:mike@aspcranes.com" = None /\
  localStorage w' !! rate_limit_flag = Some "true".
Proof.
  cbn zeta.
  split; [vm_compute; reflexivity |].
  split; [vm_compute; reflexivity |].
  split; [vm_compute; reflexivity |].
  split; [vm_compute; reflexivity |].
  split; [vm_compute; reflexivity |].
  split; [vm_compute; reflexivity |].
  split; [vm_compute; reflexivity |].
  split; [vm_compute; reflexivity |].
  split; [vm_compute; reflexivity |].
  split; vm_compute; reflexivity.
Qed.

(** *** A second run *)

Section SecondRun.

Context (env : Env).
Hypothesis Hauth : auth env = true.

(** "Already exists" is a normal completion with no result. *)
Lemma createInitialUser_exists email password name role w :
  createUser_fault env email = None ->
  is_Some (accounts w !! email) ->
  createInitialUser env email password name role w
  = (Return None, emit (CreateUserWithEmailAndPassword email password) w).
Proof.
  intros Hfault [a Ha].
  unfold createInitialUser, try_catch, bind, createUserWithEmailAndPassword.
  now rewrite Hauth, Hfault, Ha.
Qed.

Lemma seed_step_exists u w :
  localStorage w !! rate_limit_flag <> Some "true" ->
  createUser_fault env (iu_email u) = None ->
  is_Some (accounts w !! iu_email u) ->
  seed_step env u w = (Return Next, emits (skipped [u]) w).
Proof.
  intros Hflag Hfault Hex.
  rewrite seed_step_unflagged by assumption.
  rewrite createInitialUser_exists by assumption.
  unfold emits, emit. cbn. now rewrite <- app_assoc.
Qed.

Lemma for_of_all_exist l w :
  localStorage w !! rate_limit_flag <> Some "true" ->
  (forall u, In u l -> createUser_fault env (iu_email u) = None) ->
  (forall u, In u l -> is_Some (accounts w !! iu_email u)) ->
  for_of env l w = (Return Next, emits (skipped l) w).
Proof.
  revert w. induction l as [|u l IH]; intros w Hflag Hfault Hex.
  - cbn. now rewrite emits_nil.
  - cbn [for_of]. unfold bind.
    rewrite seed_step_exists; [| assumption | apply Hfault; now left
                               | apply Hex; now left].
    rewrite IH.
    + now rewrite emits_emits.
    + exact Hflag.
    + intros v Hv. apply Hfault. now right.
    + intros v Hv. cbn. apply Hex. now right.
Qed.

(** A run over accounts that all exist changes no state. *)
Lemma setupUsers_all_exist l w :
  (forall u, In u l -> createUser_fault env (iu_email u) = None) ->
  (forall u, In u l -> is_Some (accounts w !! iu_email u)) ->
  exists t,
    setupUsers env l w = (Return tt, emits t w) /\
    Forall (fun ev => is_write ev = false) t.
Proof.
  intros Hfault Hex.
  destruct (decide (localStorage w !! rate_limit_flag = Some "true"))
    as [Hflag | Hflag].
  - exists []. rewrite emits_nil. split; [| constructor].
    now apply setupUsers_flagged.
  - exists (skipped l). split; [| apply skipped_no_write].
    unfold setupUsers, try_catch, bind.
    now rewrite for_of_all_exist.
Qed.

End SecondRun.

Section FirstRun.

Context (env : Env).
Hypothesis Hclean : no_faults env.

Lemma is_Some_rename id name (m : gmap string Principal) k :
  is_Some ((rename id name <$> m) !! k) <-> is_Some (m !! k).
Proof. rewrite lookup_fmap. apply fmap_is_Some. Qed.

(** With every service answering, [createInitialUser] completes
    normally and its account exists afterwards. *)
Lemma createInitialUser_registers email password name role w :
  exists r w1,
    createInitialUser env email password name role w = (Return r, w1) /\
    localStorage w1 = localStorage w /\
    is_Some (accounts w1 !! email) /\
    (forall k, is_Some (accounts w !! k) -> is_Some (accounts w1 !! k)).
Proof.
  destruct Hclean as (Hauth & Hdb & Hcreate & Hupdate & Hwrite).
  destruct (accounts w !! email) as [a|] eqn:Ha.
  - eexists _, _. split.
    { apply createInitialUser_exists; [assumption | apply Hcreate | eauto]. }
    cbn. repeat split; eauto.
  - unfold createInitialUser, try_catch, bind, createUserWithEmailAndPassword,
      updateProfile, doc, setDoc, remote.
    rewrite Hauth, Hcreate, Ha. cbn [negb uid].
    rewrite Hupdate, Hdb. cbn [ret]. rewrite Hwrite.
    eexists _, _. split; [reflexivity |].
    cbn. split; [reflexivity |]. split.
    + apply is_Some_rename. rewrite lookup_insert_eq. eauto.
    + intros k Hk. apply is_Some_rename.
      destruct (decide (email = k)) as [<- | Hne].
      * rewrite lookup_insert_eq. eauto.
      * now rewrite lookup_insert_ne.
Qed.

Lemma for_of_registers l w :
  localStorage w !! rate_limit_flag <> Some "true" ->
  exists w1,
    for_of env l w = (Return Next, w1) /\
    localStorage w1 = localStorage w /\
    (forall u, In u l -> is_Some (accounts w1 !! iu_email u)) /\
    (forall k, is_Some (accounts w !! k) -> is_Some (accounts w1 !! k)).
Proof.
  revert w. induction l as [|u l IH]; intros w Hflag.
  - exists w. cbn. repeat split; [tauto | auto].
  - destruct (createInitialUser_registers (iu_email u) (iu_password u)
                (iu_name u) (iu_role u) w)
      as (r & w1 & Hcreate & Hls & Hmine & Hkept).
    destruct (IH (emit (SetTimeout 1500) w1))
      as (w2 & Hrest & Hls2 & Hall & Hkept2).
    { cbn. now rewrite Hls. }
    exists w2. cbn [for_of]. unfold bind.
    rewrite seed_step_unflagged by assumption. rewrite Hcreate.
    split; [exact Hrest |].
    split; [cbn in Hls2; congruence |].
    split.
    + intros v [<- | Hv]; [apply Hkept2; exact Hmine | now apply Hall].
    + intros k Hk. apply Hkept2. cbn. now apply Hkept.
Qed.

(** A first run with every service answering completes, and every
    account of the list exists afterwards, unless the sticky flag
    stopped it from the start. *)
Lemma setupUsers_registers l w :
  exists w1,
    setupUsers env l w = (Return tt, w1) /\
    (localStorage w1 !! rate_limit_flag = Some "true" \/
     forall u, In u l -> is_Some (accounts w1 !! iu_email u)).
Proof.
  destruct (decide (localStorage w !! rate_limit_flag = Some "true"))
    as [Hflag | Hflag].
  - exists w. split; [now apply setupUsers_flagged | now left].
  - destruct (for_of_registers l w Hflag) as (w1 & Hrun & _ & Hall & _).
    exists w1. unfold setupUsers, try_catch, bind. rewrite Hrun.
    split; [reflexivity | now right].
Qed.

End FirstRun.

(** C9. [setupInitialUsers] is idempotent.  Run over the fixed list when
    every entry's account exists already, with the provider answering
    each creation by "already exists", it creates nothing, raises
    nothing and leaves the provider's and the store's state - all state
    - as it was, issuing no write.  In particular a run that follows a
    completed run changes nothing. *)
Theorem setupInitialUsers_idempotent :
  (forall env w,
     auth env = true ->
     (forall u, In u INITIAL_USERS -> createUser_fault env (iu_email u) = None) ->
     (forall u, In u INITIAL_USERS -> is_Some (accounts w !! iu_email u)) ->
     exists w' t,
       setupInitialUsers env w = (Return tt, w') /\
       same_state w' w /\
       trace w' = (trace w ++ t)%list /\
       Forall (fun ev => is_write ev = false) t) /\
  (forall env1 env2 w,
     no_faults env1 -> no_faults env2 ->
     exists w1 w2,
       setupInitialUsers env1 w = (Return tt, w1) /\
       setupInitialUsers env2 w1 = (Return tt, w2) /\
       same_state w2 w1).
Proof.
  split.
  - intros env w Hauth Hfault Hex.
    destruct (setupUsers_all_exist env Hauth INITIAL_USERS w Hfault Hex)
      as (t & Hrun & Ht).
    exists (emits t w), t. split; [exact Hrun |].
    split; [apply same_state_emits |]. split; [reflexivity | exact Ht].
  - intros env1 env2 w Hclean1 Hclean2.
    destruct (setupUsers_registers env1 Hclean1 INITIAL_USERS w)
      as (w1 & Hrun1 & Hafter).
    exists w1. destruct Hafter as [Hflag | Hall].
    + exists w1. split; [exact Hrun1 |].
      split; [now apply setupUsers_flagged | now repeat split].
    + destruct Hclean2 as (Hauth & _ & Hcreate & _).
      destruct (setupUsers_all_exist env2 Hauth INITIAL_USERS w1
                  (fun u _ => Hcreate (iu_email u)) Hall) as (t & Hrun2 & _).
      exists (emits t w1). split; [exact Hrun1 |].
      split; [exact Hrun2 | apply same_state_emits].
Qed.

Lemma setupInitialUsers_idempotent_witness :
  (exists w' t,
     setupInitialUsers healthy seeded_world = (Return tt, w') /\
     same_state w' seeded_world /\
     trace w' = (trace seeded_world ++ t)%list /\
     Forall (fun ev => is_write ev = false) t) /\
  (exists w1 w2,
     setupInitialUsers healthy empty_world = (Return tt, w1) /\
     setupInitialUsers healthy w1 = (Return tt, w2) /\
     same_state w2 w1).
Proof.
  split.
  - apply (proj1 setupInitialUsers_idempotent healthy seeded_world).
    + reflexivity.
    + intros u _. reflexivity.
    + intros u Hu. cbn in Hu.
      destruct Hu as [<- | [<- | [<- | [<- | []]]]];
        vm_compute; eexists; reflexivity.
  - apply (proj2 setupInitialUsers_idempotent healthy healthy empty_world);
      now repeat split.
Defined.

Example second_run_trace :
  skipped INITIAL_USERS =
  [CreateUserWithEmailAndPassword "admin@aspcranes.com" "admin123"; SetTimeout 1500;
   CreateUserWithEmailAndPassword "john@aspcranes.com" "sales123"; SetTimeout 1500;
   CreateUserWithEmailAndPassword "sara@aspcranes.com" "manager123"; SetTimeout 1500;
   CreateUserWithEmailAndPassword "mike@aspcranes.com" "operator123"; SetTimeout 1500].
Proof. reflexivity. Qed.

(** ** Provisioned role against inferred role *)

Lemma signIn_synthesizes env w email password p :
  auth env = true -> verdict env email password = Return p ->
  getIdToken_fault env (uid p) = None ->
  users w !! uid p = None \/ db env = false \/
    is_Some (getDoc_fault env (uid p)) ->
  fst (signIn env email password w) = Return (synthesized p).
Proof.
  intros Hauth Hverdict Htoken Hcase.
  destruct (db env) eqn:Hdb.
  2: { now rewrite (signIn_no_store env w email password p). }
  destruct (getDoc_fault env (uid p)) as [e|] eqn:Hread.
  { now rewrite (signIn_read_failed env w email password p Hauth Hverdict
                   Htoken e). }
  destruct Hcase as [Hdoc | [Hno | [e He]]]; try discriminate.
  destruct (setDoc_fault env (uid p)) as [e|] eqn:Hwrite.
  - now rewrite (signIn_missing_unwritten env w email password p Hauth
                   Hverdict Htoken e).
  - now rewrite (signIn_missing_written env w email password p).
Qed.

Lemma getCurrentUser_synthesizes env w p :
  auth env = true -> currentUser w = Some p ->
  db env = false \/
    (getDoc_fault env (uid p) = None /\ users w !! uid p = None) ->
  fst (getCurrentUser env w) = Return (Some (synthesized p)).
Proof.
  intros Hauth Hp Hcase. destruct (db env) eqn:Hdb.
  - destruct Hcase as [Hno | [Hread Hdoc]]; [discriminate |].
    rewrite (getCurrentUser_read env w p Hauth Hp Hdb). cbn.
    now rewrite Hread, Hdoc.
  - now rewrite (getCurrentUser_no_store env w p Hauth Hp Hdb).
Qed.

(** C10. The seeder provisions "john@aspcranes.com" as sales_agent and
    "sara@aspcranes.com" as operations_manager, while role inference
    maps both emails to operator.  So for a principal with either email,
    every path that synthesizes the profile - a sign-in that finds no
    document or no readable store, a current-user query that finds no
    document or no store handle - yields the role operator, which is not
    the role provisioned. *)
Theorem seeded_roles_differ_from_inference :
  INITIAL_USERS !! 1 =
    Some {| iu_email := "john@aspcranes.com"; iu_password := "sales123";
            iu_name := "John Sales"; iu_role := sales_agent |} /\
  INITIAL_USERS !! 2 =
    Some {| iu_email := "sara@aspcranes.com"; iu_password := "manager123";
            iu_name := "Sara Manager"; iu_role := operations_manager |} /\
  determineRoleFromEmail (Some "john@aspcranes.com") = operator /\
  determineRoleFromEmail (Some "sara@aspcranes.com") = operator /\
  (forall u p,
     In u INITIAL_USERS ->
     iu_email u = "john@aspcranes.com" \/ iu_email u = "sara@aspcranes.com" ->
     p_email p = Some (iu_email u) ->
     user_role (synthesized p) = Some operator /\
     user_role (synthesized p) <> Some (iu_role u) /\
     (forall env w password,
        auth env = true -> verdict env (iu_email u) password = Return p ->
        getIdToken_fault env (uid p) = None ->
        users w !! uid p = None \/ db env = false \/
          is_Some (getDoc_fault env (uid p)) ->
        fst (signIn env (iu_email u) password w) = Return (synthesized p)) /\
     (forall env w,
        auth env = true -> currentUser w = Some p ->
        db env = false \/
          (getDoc_fault env (uid p) = None /\ users w !! uid p = None) ->
        fst (getCurrentUser env w) = Return (Some (synthesized p)))).
Proof.
  do 4 (split; [reflexivity |]).
  intros u p Hu He Hp.
  assert (Hrole : determineRoleFromEmail (p_email p) = operator)
    by (rewrite Hp; destruct He as [-> | ->]; reflexivity).
  split; [cbn; now rewrite Hrole |].
  split.
  - cbn. rewrite Hrole. cbn in Hu.
    destruct Hu as [<- | [<- | [<- | [<- | []]]]];
      destruct He as [He | He]; try discriminate He; discriminate.
  - split.
    + intros env w password. now apply signIn_synthesizes.
    + intros env w. now apply getCurrentUser_synthesizes.
Qed.

Lemma seeded_roles_differ_from_inference_witness :
  let u := {| iu_email := "john@aspcranes.com"; iu_password := "sales123";
              iu_name := "John Sales"; iu_role := sales_agent |} in
  let p := sample_principal "john@aspcranes.com" in
  In u INITIAL_USERS /\ p_email p = Some (iu_email u) /\
  user_role (synthesized p) = Some operator /\
  user_role (synthesized p) <> Some (iu_role u) /\
  fst (signIn store_down "john@aspcranes.com" "sales123" seeded_world)
    = Return (synthesized p) /\
  fst (getCurrentUser no_store (set_currentUser (fun _ => Some p) seeded_world))
    = Return (Some (synthesized p)).
Proof.
  cbn zeta.
  destruct (proj2 (proj2 (proj2 (proj2 seeded_roles_differ_from_inference)))
              {| iu_email := "john@aspcranes.com"; iu_password := "sales123";
                 iu_name := "John Sales"; iu_role := sales_agent |}
              (sample_principal "john@aspcranes.com"))
    as (Hrole & Hneq & HsignIn & Hcurrent).
  - cbn. right. now left.
  - now left.
  - reflexivity.
  - split; [cbn; right; now left |].
    split; [reflexivity |].
    split; [exact Hrole |]. split; [exact Hneq |].
    split.
    + apply (HsignIn store_down seeded_world "sales123");
        try reflexivity.
      right. right. cbn. eauto.
    + apply (Hcurrent no_store); try reflexivity. now left.
Defined.

(** The write of John's document is refused during the first seeding,
    which aborts; a later seeding finds the account and skips it; his
    sign-in then finds no document and makes him an operator. *)
Example john_signs_in_as_operator :
  let w1 := snd (setupInitialUsers (write_refused_for "uid:john@aspcranes.com")
                   empty_world) in
  let w2 := snd (setupInitialUsers healthy w1) in
  fst (setupInitialUsers (write_refused_for "uid:john@aspcranes.com") empty_world)
    = Throw permission_denied /\
  fst (setupInitialUsers healthy w1) = Return tt /\
  users w2 !! "uid:john@aspcranes.com" = None /\
  fst (signIn healthy "john@aspcranes.com" "sales123" w2)
    = Return {| user_id := "uid:john@aspcranes.com";
                user_name := Some "john";
                user_email := Some "john@aspcranes.com";
                user_role := Some operator |}.
Proof. cbn zeta. repeat split; vm_compute; reflexivity. Qed.

(** * Further properties *)

(** ** Sign-in: the failing paths *)

Lemma friendly_range e :
  code (friendly e) = None /\ In (message (friendly e)) signIn_messages.
Proof.
  unfold friendly.
  repeat match goal with
         | |- context [if code_is ?c ?x then _ else _] => destruct (code_is c x)
         end; cbn; tauto.
Qed.

Lemma signIn_no_auth env w email password :
  auth env = false ->
  signIn env email password w =
  (Throw (friendly (new_Error "Firebase auth is not initialized")), marked w).
Proof.
  intros Hauth.
  unfold signIn, try_catch, bind, sessionStorage_setItem, effect.
  now rewrite Hauth.
Qed.

Lemma signIn_rejected env w email password e :
  auth env = true -> verdict env email password = Throw e ->
  signIn env email password w =
  (Throw (friendly e),
   emit (SignInWithEmailAndPassword email password) (marked w)).
Proof.
  intros Hauth Hverdict.
  unfold signIn, try_catch, bind, sessionStorage_setItem, effect.
  rewrite Hauth. cbn [negb ret].
  unfold signInWithEmailAndPassword. now rewrite Hverdict.
Qed.

Lemma signIn_token_failed env w email password p e :
  auth env = true -> verdict env email password = Return p ->
  getIdToken_fault env (uid p) = Some e ->
  signIn env email password w =
  (Throw (friendly e), authenticated email password p w).
Proof.
  intros Hauth Hverdict Htoken.
  unfold signIn, try_catch, bind, sessionStorage_setItem, effect.
  rewrite Hauth. cbn [negb ret].
  unfold signInWithEmailAndPassword. rewrite Hverdict.
  unfold getIdToken, remote. cbn [uid]. now rewrite Htoken.
Qed.

(** Every way a sign-in can go, by what the services answer. *)
Ltac signIn_paths env w email password :=
  let p := fresh "p" in
  destruct (auth env) eqn:Hauth;
  [ destruct (verdict env email password) as [p|?e] eqn:Hverdict;
    [ destruct (getIdToken_fault env (uid p)) as [?e|] eqn:Htoken;
      [ rewrite (signIn_token_failed env w email password p _ Hauth Hverdict Htoken)
      | destruct (db env) eqn:Hdb;
        [ destruct (getDoc_fault env (uid p)) as [?e|] eqn:Hread;
          [ rewrite (signIn_read_failed env w email password p Hauth Hverdict
                       Htoken _ Hdb Hread)
          | destruct (users w !! uid p) as [?d|] eqn:Hdoc;
            [ rewrite (signIn_found env w email password p Hauth Hverdict
                         Htoken _ Hdb Hread Hdoc)
            | destruct (setDoc_fault env (uid p)) as [?e|] eqn:Hwrite;
              [ rewrite (signIn_missing_unwritten env w email password p Hauth
                           Hverdict Htoken _ Hdb Hread Hdoc Hwrite)
              | rewrite (signIn_missing_written env w email password p Hauth
                           Hverdict Htoken Hdb Hread Hdoc Hwrite) ] ] ]
        | rewrite (signIn_no_store env w email password p Hauth Hverdict
                     Htoken Hdb) ] ]
    | rewrite (signIn_rejected env w email password _ Hauth Hverdict) ]
  | rewrite (signIn_no_auth env w email password Hauth) ].

(** X1. Whatever goes wrong in a sign-in - a null handle, rejected
    credentials, a failed token refresh - the error that reaches the
    caller carries no code and one of six fixed messages, never the
    provider's own text; and a sign-in that fails has not touched the
    store: no read, no write, nothing left in flight. *)
Theorem signIn_errors_are_friendly env w email password e :
  fst (signIn env email password w) = Throw e ->
  code e = None /\ In (message e) signIn_messages /\
  users (snd (signIn env email password w)) = users w /\
  inflight (snd (signIn env email password w)) = inflight w /\
  exists t,
    trace (snd (signIn env email password w)) = (trace w ++ t)%list /\
    Forall (fun ev => is_store_call ev = false) t.
Proof.
  signIn_paths env w email password; cbn [fst snd]; try discriminate;
    intros [= <-];
    (split; [apply friendly_range |]); (split; [apply friendly_range |]);
    (split; [reflexivity |]); (split; [reflexivity |]).
  - eexists. split; [cbn; rewrite <- app_assoc; reflexivity |].
    now repeat constructor.
  - eexists. split; [reflexivity |]. now repeat constructor.
  - exists []. split; [cbn; now rewrite app_nil_r | constructor].
Qed.

Lemma signIn_errors_are_friendly_witness :
  let e := new_Error "Incorrect password. Please try again." in
  let r := signIn rejecting "john@aspcranes.com" "guess" seeded_world in
  code e = None /\ In (message e) signIn_messages /\
  users (snd r) = users seeded_world /\
  inflight (snd r) = inflight seeded_world /\
  exists t,
    trace (snd r) = (trace seeded_world ++ t)%list /\
    Forall (fun ev => is_store_call ev = false) t.
Proof.
  apply (signIn_errors_are_friendly rejecting seeded_world
           "john@aspcranes.com" "guess"
           (new_Error "Incorrect password. Please try again.")).
  reflexivity.
Defined.

(** X2. After a sign-in, however it ended, the explicit-action marker of
    the session is set. *)
Theorem signIn_marks_explicit_action env w email password :
  sessionStorage (snd (signIn env email password w)) !! "explicit-auth-action"
  = Some "true".
Proof.
  signIn_paths env w email password; cbn;
    rewrite ?lookup_insert_ne by discriminate; apply lookup_insert_eq.
Qed.

(** X3. A sign-in that fails at the token refresh fails with a mapped
    error and without touching the store, but the provider has signed
    the principal in and nothing signs it out: the current-user query
    that follows does not answer null. *)
Theorem signIn_token_failure_leaves_signed_in env w email password p e :
  auth env = true -> verdict env email password = Return p ->
  getIdToken_fault env (uid p) = Some e ->
  let w' := snd (signIn env email password w) in
  fst (signIn env email password w) = Throw (friendly e) /\
  currentUser w' = Some p /\
  users w' = users w /\
  trace w' = (trace w ++ [SignInWithEmailAndPassword email password;
                          GetIdToken (uid p)])%list /\
  fst (getCurrentUser env w') <> Return None.
Proof.
  intros Hauth Hverdict Htoken w'. subst w'.
  rewrite (signIn_token_failed env w email password p e Hauth Hverdict Htoken).
  cbn [fst snd].
  split; [reflexivity |]. split; [reflexivity |]. split; [reflexivity |].
  split; [cbn; now rewrite <- app_assoc |].
  destruct (db env) eqn:Hdb.
  - rewrite (getCurrentUser_read env (authenticated email password p w) p
               Hauth eq_refl Hdb). cbn [fst].
    destruct (getDoc_fault env (uid p)); [discriminate |].
    destruct (users _ !! uid p); discriminate.
  - rewrite (getCurrentUser_no_store env (authenticated email password p w) p
               Hauth eq_refl Hdb). discriminate.
Qed.

Lemma signIn_token_failure_leaves_signed_in_witness :
  let p := sample_principal "john@aspcranes.com" in
  let w' := snd (signIn token_refused "john@aspcranes.com" "sales123"
                   seeded_world) in
  fst (signIn token_refused "john@aspcranes.com" "sales123" seeded_world)
    = Throw (friendly unavailable) /\
  currentUser w' = Some p /\
  users w' = users seeded_world /\
  trace w' = (trace seeded_world ++
              [SignInWithEmailAndPassword "john@aspcranes.com" "sales123";
               GetIdToken (uid p)])%list /\
  fst (getCurrentUser token_refused w') <> Return None.
Proof.
  apply (signIn_token_failure_leaves_signed_in token_refused seeded_world
           "john@aspcranes.com" "sales123"
           (sample_principal "john@aspcranes.com") unavailable);
    reflexivity.
Defined.

(** ** Sign-in: what later calls see *)

(** X4. Once a sign-in has come back through the store - the document
    was found, or was missing and got written - the next sign-in of the
    same principal, with the store answering, returns the very same
    profile and only reads: no write is issued and the store is as the
    first sign-in left it. *)
Theorem signIn_again_returns_same env1 env2 w email password p :
  auth env1 = true -> verdict env1 email password = Return p ->
  getIdToken_fault env1 (uid p) = None ->
  db env1 = true -> getDoc_fault env1 (uid p) = None ->
  is_Some (users w !! uid p) \/ setDoc_fault env1 (uid p) = None ->
  auth env2 = true -> verdict env2 email password = Return p ->
  getIdToken_fault env2 (uid p) = None ->
  db env2 = true -> getDoc_fault env2 (uid p) = None ->
  exists user w1 w2,
    signIn env1 email password w = (Return user, w1) /\
    signIn env2 email password w1 = (Return user, w2) /\
    users w2 = users w1 /\ inflight w2 = inflight w1 /\
    trace w2 = (trace w1 ++ [SignInWithEmailAndPassword email password;
                             GetIdToken (uid p); GetDoc (uid p)])%list.
Proof.
  intros Hauth1 Hverdict1 Htoken1 Hdb1 Hread1 Hcase
         Hauth2 Hverdict2 Htoken2 Hdb2 Hread2.
  destruct (users w !! uid p) as [d|] eqn:Hdoc.
  - eexists _, _, _. split.
    { apply signIn_found; eassumption. }
    split.
    { apply signIn_found; eassumption. }
    cbn. repeat split. now rewrite <- !app_assoc.
  - destruct Hcase as [[d Hd] | Hwrite]; [discriminate |].
    eexists _, _, _. split.
    { apply signIn_missing_written; eassumption. }
    split.
    { apply (signIn_found env2 _ email password p Hauth2 Hverdict2 Htoken2
               (synthesized_doc p) Hdb2 Hread2).
      cbn. apply lookup_insert_eq. }
    cbn. repeat split. now rewrite <- !app_assoc.
Qed.

Lemma signIn_again_returns_same_witness :
  let p := sample_principal "sales.lee@aspcranes.com" in
  exists user w1 w2,
    signIn healthy "sales.lee@aspcranes.com" "pw" empty_world = (Return user, w1) /\
    signIn healthy "sales.lee@aspcranes.com" "pw" w1 = (Return user, w2) /\
    users w2 = users w1 /\ inflight w2 = inflight w1 /\
    trace w2 = (trace w1 ++
                [SignInWithEmailAndPassword "sales.lee@aspcranes.com" "pw";
                 GetIdToken (uid p); GetDoc (uid p)])%list.
Proof.
  apply (signIn_again_returns_same healthy healthy empty_world
           "sales.lee@aspcranes.com" "pw"
           (sample_principal "sales.lee@aspcranes.com"));
    try reflexivity.
  right. reflexivity.
Defined.

(** X5. The write that the degraded path issues replaces the document,
    it does not merge.  So when a sign-in could not read a profile that
    does exist, the stored profile - whatever name and role it had - is
    overwritten by the synthesized one as soon as the detached write
    lands, and later sign-ins return the inferred role. *)
Theorem signIn_read_failure_overwrites env env2 w email password p e d :
  auth env = true -> verdict env email password = Return p ->
  getIdToken_fault env (uid p) = None ->
  db env = true -> getDoc_fault env (uid p) = Some e ->
  users w !! uid p = Some d ->
  inflight w = [] -> background_fault env (uid p) = None ->
  auth env2 = true -> verdict env2 email password = Return p ->
  getIdToken_fault env2 (uid p) = None ->
  db env2 = true -> getDoc_fault env2 (uid p) = None ->
  let w1 := settle env (snd (signIn env email password w)) in
  fst (signIn env email password w) = Return (synthesized p) /\
  users w1 !! uid p = Some (synthesized_doc p) /\
  (forall k, k <> uid p -> users w1 !! k = users w !! k) /\
  fst (signIn env2 email password w1) = Return (synthesized p).
Proof.
  intros Hauth Hverdict Htoken Hdb Hread Hdoc Hin Hbg
         Hauth2 Hverdict2 Htoken2 Hdb2 Hread2 w1. subst w1.
  rewrite (signIn_read_failed env w email password p Hauth Hverdict Htoken
             e Hdb Hread).
  cbn [fst snd].
  assert (Hland : users (settle env (degraded true p
                    (emit (GetDoc (uid p)) (authenticated email password p w))))
                  = <[uid p := synthesized_doc p]> (users w)).
  { erewrite settle_landed; [reflexivity | cbn; now rewrite Hin | exact Hbg]. }
  split; [reflexivity |].
  split; [rewrite Hland; apply lookup_insert_eq |].
  split; [intros k Hk; rewrite Hland; now apply lookup_insert_ne |].
  rewrite (signIn_found env2 _ email password p Hauth2 Hverdict2 Htoken2
             (synthesized_doc p) Hdb2 Hread2).
  - reflexivity.
  - rewrite Hland. apply lookup_insert_eq.
Qed.

(** John, provisioned as sales agent, signs in while the store cannot be
    read: his document ends up saying operator. *)
Lemma signIn_read_failure_overwrites_witness :
  let w1 := settle (read_refused_for "uid:john@aspcranes.com")
              (snd (signIn (read_refused_for "uid:john@aspcranes.com")
                      "john@aspcranes.com" "sales123" seeded_world)) in
  fst (signIn (read_refused_for "uid:john@aspcranes.com")
         "john@aspcranes.com" "sales123" seeded_world)
    = Return (synthesized (sample_principal "john@aspcranes.com")) /\
  users w1 !! uid (sample_principal "john@aspcranes.com")
    = Some (synthesized_doc (sample_principal "john@aspcranes.com")) /\
  (forall k, k <> uid (sample_principal "john@aspcranes.com") ->
     users w1 !! k = users seeded_world !! k) /\
  fst (signIn healthy "john@aspcranes.com" "sales123" w1)
    = Return (synthesized (sample_principal "john@aspcranes.com")).
Proof.
  apply (signIn_read_failure_overwrites
           (read_refused_for "uid:john@aspcranes.com") healthy
           seeded_world "john@aspcranes.com" "sales123"
           (sample_principal "john@aspcranes.com") unavailable
           {| d_id := Some "uid:john@aspcranes.com";
              d_name := Some "John Sales";
              d_email := Some "john@aspcranes.com";
              d_role := Some sales_agent;
              d_createdAt := Some serverTimestamp |});
    vm_compute; reflexivity.
Defined.

Example john_demoted_by_unreadable_store :
  let env := read_refused_for "uid:john@aspcranes.com" in
  let w1 := settle env (snd (signIn env "john@aspcranes.com" "sales123"
                               seeded_world)) in
  d_role <$> users seeded_world !! "uid:john@aspcranes.com"
    = Some (Some sales_agent) /\
  d_role <$> users w1 !! "uid:john@aspcranes.com" = Some (Some operator) /\
  d_name <$> users w1 !! "uid:john@aspcranes.com" = Some (Some "john").
Proof. cbn zeta. repeat split; vm_compute; reflexivity. Qed.

(** X6. The current-user query agrees with the sign-in before it: asked
    in the same environment right after a sign-in returned a profile, it
    returns that same profile, unless the store fails the read, in which
    case it throws the store's error. *)
Theorem getCurrentUser_after_signIn env w email password user w' :
  signIn env email password w = (Return user, w') ->
  fst (getCurrentUser env w') =
  match (if db env then getDoc_fault env (user_id user) else None) with
  | Some e => Throw e
  | None => Return (Some user)
  end.
Proof.
  signIn_paths env w email password; try discriminate;
    intros [= <- <-]; cbn [user_id stored synthesized].
  - (* read failed *)
    rewrite (getCurrentUser_read env _ p) by first [assumption | reflexivity].
    cbn [fst].
    now rewrite Hread.
  - (* found *)
    rewrite (getCurrentUser_read env _ p) by first [assumption | reflexivity].
    cbn [fst].
    rewrite Hread. cbn. now rewrite Hdoc.
  - (* missing, write failed *)
    rewrite (getCurrentUser_read env _ p) by first [assumption | reflexivity].
    cbn [fst].
    rewrite Hread. cbn. now rewrite Hdoc.
  - (* missing, written *)
    rewrite (getCurrentUser_read env _ p) by first [assumption | reflexivity].
    cbn [fst].
    rewrite Hread. cbn. now rewrite lookup_insert_eq.
  - (* no store handle *)
    rewrite (getCurrentUser_no_store env _ p) by first [assumption | reflexivity].
    reflexivity.
Qed.

Lemma getCurrentUser_after_signIn_witness :
  let user := {| user_id := "uid:sara@aspcranes.com";
                 user_name := Some "Sara Manager";
                 user_email := Some "sara@aspcranes.com";
                 user_role := Some operations_manager |} in
  let w' := snd (signIn healthy "sara@aspcranes.com" "manager123" seeded_world) in
  signIn healthy "sara@aspcranes.com" "manager123" seeded_world = (Return user, w') /\
  fst (getCurrentUser healthy w') = Return (Some user).
Proof.
  cbn zeta.
  assert (Hrun : signIn healthy "sara@aspcranes.com" "manager123" seeded_world
                 = (Return {| user_id := "uid:sara@aspcranes.com";
                              user_name := Some "Sara Manager";
                              user_email := Some "sara@aspcranes.com";
                              user_role := Some operations_manager |},
                    snd (signIn healthy "sara@aspcranes.com" "manager123"
                           seeded_world)))
    by (vm_compute; reflexivity).
  split; [exact Hrun |].
  exact (getCurrentUser_after_signIn healthy seeded_world
           "sara@aspcranes.com" "manager123" _ _ Hrun).
Defined.

(** ** Sign-up *)

Lemma rename_created env email name :
  rename (new_uid env email) name (created_account env email)
  = named_account env email name.
Proof. unfold rename, created_account, named_account. cbn. now rewrite decide_True. Qed.

Lemma renamed_account env email password name w :
  accounts (renamed env email password name w) !! email
  = Some (named_account env email name).
Proof.
  cbn. rewrite lookup_fmap, lookup_insert_eq. cbn.
  now rewrite rename_created.
Qed.

Lemma renamed_currentUser env email password name w :
  currentUser (renamed env email password name w)
  = Some (named_account env email name).
Proof. cbn. now rewrite rename_created. Qed.

Section SignUp.

Context (env : Env) (w : World) (email password name : string) (role : UserRole).
Hypothesis Hauth : auth env = true.
Hypothesis Hcreate : createUser_fault env email = None.
Hypothesis Hfresh : accounts w !! email = None.

Lemma signUp_unfold :
  signUp env email password name role w =
  try_catch
    (let* _ := updateProfile env (created_account env email) name in
     let* _ := safeSetDoc env (safeDoc env (new_uid env email))
                 (signUp_doc env email name role) false in
     ret (signUp_user env email name role))
    (fun error => throw error)
    (registered env email password w).
Proof.
  unfold signUp, try_catch, bind at 1 2, createUserWithEmailAndPassword.
  rewrite Hauth. cbn [negb ret]. rewrite Hcreate, Hfresh. reflexivity.
Qed.

(** Everything answers. *)
Lemma signUp_created :
  updateProfile_fault env (new_uid env email) = None ->
  db env = true -> setDoc_fault env (new_uid env email) = None ->
  signUp env email password name role w =
  (Return (signUp_user env email name role),
   store_write (new_uid env email) (signUp_doc env email name role) false
     (emit (SetDoc (new_uid env email) (signUp_doc env email name role) false)
        (renamed env email password name w))).
Proof.
  intros Hupdate Hdb Hwrite. rewrite signUp_unfold.
  unfold try_catch, bind, updateProfile, safeDoc, safeSetDoc, setDoc, remote.
  cbn [uid created_account]. rewrite Hupdate, Hdb. cbn [negb]. rewrite Hwrite.
  reflexivity.
Qed.

(** The display name cannot be set. *)
Lemma signUp_unnamed e :
  updateProfile_fault env (new_uid env email) = Some e ->
  signUp env email password name role w =
  (Throw e, emit (UpdateProfile (new_uid env email) name)
              (registered env email password w)).
Proof.
  intros Hupdate. rewrite signUp_unfold.
  unfold try_catch, bind, updateProfile, remote.
  cbn [uid created_account]. now rewrite Hupdate.
Qed.

(** There is no store handle. *)
Lemma signUp_no_store :
  updateProfile_fault env (new_uid env email) = None -> db env = false ->
  signUp env email password name role w =
  (Throw (new_Error "Document reference is null"),
   renamed env email password name w).
Proof.
  intros Hupdate Hdb. rewrite signUp_unfold.
  unfold try_catch, bind, updateProfile, safeDoc, safeSetDoc, remote.
  cbn [uid created_account]. rewrite Hupdate, Hdb. reflexivity.
Qed.

(** The store refuses the document. *)
Lemma signUp_unwritten e :
  updateProfile_fault env (new_uid env email) = None ->
  db env = true -> setDoc_fault env (new_uid env email) = Some e ->
  signUp env email password name role w =
  (Throw e,
   emit (SetDoc (new_uid env email) (signUp_doc env email name role) false)
     (renamed env email password name w)).
Proof.
  intros Hupdate Hdb Hwrite. rewrite signUp_unfold.
  unfold try_catch, bind, updateProfile, safeDoc, safeSetDoc, setDoc, remote.
  cbn [uid created_account]. rewrite Hupdate, Hdb. cbn [negb]. rewrite Hwrite.
  reflexivity.
Qed.

End SignUp.

(** X7. A sign-up with a fresh email and every service answering returns
    the profile as requested, role included; afterwards the provider has
    the account under that email with the display name set and signed
    in, and the store holds the profile under the account's id, other
    documents being untouched. *)
Theorem signUp_creates_account_and_profile env w email password name role :
  auth env = true -> createUser_fault env email = None ->
  accounts w !! email = None ->
  updateProfile_fault env (new_uid env email) = None ->
  db env = true -> setDoc_fault env (new_uid env email) = None ->
  exists w',
    signUp env email password name role w
      = (Return {| user_id := new_uid env email; user_name := Some name;
                   user_email := Some email; user_role := Some role |}, w') /\
    accounts w' !! email
      = Some {| uid := new_uid env email; p_email := Some email;
                displayName := Some name |} /\
    currentUser w'
      = Some {| uid := new_uid env email; p_email := Some email;
                displayName := Some name |} /\
    users w' !! new_uid env email
      = Some {| d_id := Some (new_uid env email); d_name := Some name;
                d_email := Some email; d_role := Some role;
                d_createdAt := Some serverTimestamp |} /\
    (forall k, k <> new_uid env email -> users w' !! k = users w !! k).
Proof.
  intros Hauth Hcreate Hfresh Hupdate Hdb Hwrite.
  eexists. split; [now apply signUp_created |].
  split; [apply renamed_account |].
  split; [apply renamed_currentUser |].
  split; [cbn; apply lookup_insert_eq |].
  intros k Hk. cbn. now rewrite lookup_insert_ne.
Qed.

Lemma signUp_creates_account_and_profile_witness :
  exists w',
    signUp healthy "lee@x.com" "pw" "Lee" sales_agent empty_world
      = (Return {| user_id := new_uid healthy "lee@x.com";
                   user_name := Some "Lee";
                   user_email := Some "lee@x.com";
                   user_role := Some sales_agent |}, w') /\
    accounts w' !! "lee@x.com"
      = Some {| uid := new_uid healthy "lee@x.com"; p_email := Some "lee@x.com";
                displayName := Some "Lee" |} /\
    currentUser w'
      = Some {| uid := new_uid healthy "lee@x.com"; p_email := Some "lee@x.com";
                displayName := Some "Lee" |} /\
    users w' !! new_uid healthy "lee@x.com"
      = Some {| d_id := Some (new_uid healthy "lee@x.com"); d_name := Some "Lee";
                d_email := Some "lee@x.com"; d_role := Some sales_agent;
                d_createdAt := Some serverTimestamp |} /\
    (forall k, k <> new_uid healthy "lee@x.com" ->
       users w' !! k = users empty_world !! k).
Proof.
  apply (signUp_creates_account_and_profile healthy empty_world
           "lee@x.com" "pw" "Lee" sales_agent); vm_compute; reflexivity.
Defined.

(** X8. Sign-up followed by sign-in is a round trip: when the provider
    hands the sign-in the account that the sign-up created and the store
    answers, the sign-in returns exactly the profile the sign-up
    returned - the requested role, not the one inferred from the email -
    and writes nothing. *)
Theorem signIn_after_signUp env env2 w email password name role p user w1 :
  signUp env email password name role w = (Return user, w1) ->
  auth env2 = true -> verdict env2 email password = Return p ->
  uid p = user_id user ->
  getIdToken_fault env2 (uid p) = None ->
  db env2 = true -> getDoc_fault env2 (uid p) = None ->
  exists w2,
    signIn env2 email password w1 = (Return user, w2) /\
    users w2 = users w1 /\ inflight w2 = inflight w1.
Proof.
  intros Hup Hauth2 Hverdict2 Huid Htoken2 Hdb2 Hread2.
  assert (Hdoc : users w1 !! user_id user
                 = Some {| d_id := Some (user_id user);
                           d_name := user_name user;
                           d_email := user_email user;
                           d_role := user_role user;
                           d_createdAt := Some serverTimestamp |}).
  { revert Hup.
    unfold signUp, try_catch, bind, createUserWithEmailAndPassword,
      updateProfile, safeDoc, safeSetDoc, setDoc, remote.
    destruct (auth env); cbn [negb ret throw]; [| discriminate].
    destruct (createUser_fault env email); [discriminate |].
    destruct (accounts w !! email); [discriminate |].
    cbn [uid].
    destruct (updateProfile_fault env (new_uid env email)); [discriminate |].
    destruct (db env); cbn [negb throw]; [| discriminate].
    destruct (setDoc_fault env (new_uid env email)); [discriminate |].
    intros [= <- <-]. cbn. apply lookup_insert_eq. }
  rewrite <- Huid in Hdoc.
  eexists. split.
  { rewrite (signIn_found env2 w1 email password p Hauth2 Hverdict2 Htoken2
               _ Hdb2 Hread2 Hdoc).
    f_equal. destruct user. cbn in *. now subst. }
  now split.
Qed.

Lemma signIn_after_signUp_witness :
  let user := {| user_id := "uid:office@x.com"; user_name := Some "Kim";
                 user_email := Some "office@x.com";
                 user_role := Some admin |} in
  let w1 := snd (signUp healthy "office@x.com" "pw" "Kim" admin empty_world) in
  determineRoleFromEmail (Some "office@x.com") = operator /\
  exists w2,
    signIn healthy "office@x.com" "pw" w1 = (Return user, w2) /\
    users w2 = users w1 /\ inflight w2 = inflight w1.
Proof.
  cbn zeta. split; [reflexivity |].
  apply (signIn_after_signUp healthy healthy empty_world
           "office@x.com" "pw" "Kim" admin
           (sample_principal "office@x.com"));
    vm_compute; reflexivity.
Defined.

(** X9. A sign-up that fails before the account exists changes nothing,
    and its error comes back as it is: with a null handle the fixed
    message about the handle, without any call; otherwise the provider's
    own error, which for a registered email is the "already in use"
    error that the seeder swallows and that here reaches the caller. *)
Theorem signUp_refused_changes_nothing env w email password name role :
  auth env = false \/ is_Some (createUser_fault env email) \/
    is_Some (accounts w !! email) ->
  exists e w',
    signUp env email password name role w = (Throw e, w') /\
    same_state w' w /\
    (auth env = false ->
     e = new_Error "Firebase auth is not initialized" /\ w' = w) /\
    (auth env = true -> forall e0, createUser_fault env email = Some e0 ->
     e = e0) /\
    (auth env = true -> createUser_fault env email = None ->
     code e = Some "auth/email-already-in-use").
Proof.
  intros Hcase.
  unfold signUp, try_catch, bind, createUserWithEmailAndPassword.
  destruct (auth env) eqn:Hauth; cbn [negb ret throw].
  - destruct (createUser_fault env email) as [e0|] eqn:Hcreate.
    + eexists _, _. split; [reflexivity |].
      split; [now repeat split |].
      split; [discriminate |]. split; [now intros _ e1 [= <-] | discriminate].
    + destruct (accounts w !! email) as [a|] eqn:Ha.
      * eexists _, _. split; [reflexivity |].
        split; [now repeat split |].
        split; [discriminate |]. split; [discriminate | reflexivity].
      * destruct Hcase as [? | [[? ?] | [? ?]]]; discriminate.
  - eexists _, _. split; [reflexivity |].
    split; [now repeat split |].
    split; [now split |]. split; discriminate.
Qed.

Lemma signUp_refused_changes_nothing_witness :
  exists e w',
    signUp healthy "john@aspcranes.com" "pw" "John" admin seeded_world
      = (Throw e, w') /\
    same_state w' seeded_world /\
    (auth healthy = false ->
     e = new_Error "Firebase auth is not initialized" /\ w' = seeded_world) /\
    (auth healthy = true ->
     forall e0, createUser_fault healthy "john@aspcranes.com" = Some e0 ->
     e = e0) /\
    (auth healthy = true ->
     createUser_fault healthy "john@aspcranes.com" = None ->
     code e = Some "auth/email-already-in-use").
Proof.
  apply (signUp_refused_changes_nothing healthy seeded_world
           "john@aspcranes.com" "pw" "John" admin).
  right. right. vm_compute. eexists. reflexivity.
Defined.

(** X10. Sign-up does not undo the account when a later step fails.  If
    the display name cannot be set, the store has no handle or the
    document is refused, the sign-up throws, yet the provider keeps the
    account, signed in, and the store has no profile for it.  A later
    sign-in of that account returns the profile synthesized from the
    principal, with the role inferred from the email, whatever role the
    sign-up was asked for. *)
Theorem signUp_failure_leaves_account env env2 w email password name role p :
  auth env = true -> createUser_fault env email = None ->
  accounts w !! email = None ->
  is_Some (updateProfile_fault env (new_uid env email)) \/ db env = false \/
    is_Some (setDoc_fault env (new_uid env email)) ->
  exists e w',
    signUp env email password name role w = (Throw e, w') /\
    is_Some (accounts w' !! email) /\
    (exists q, currentUser w' = Some q /\ uid q = new_uid env email) /\
    users w' = users w /\
    (users w !! new_uid env email = None ->
     auth env2 = true -> verdict env2 email password = Return p ->
     uid p = new_uid env email ->
     getIdToken_fault env2 (uid p) = None ->
     fst (signIn env2 email password w') = Return (synthesized p)).
Proof.
  intros Hauth Hcreate Hfresh Hcase.
  assert (Hsign : forall w', users w' = users w ->
            users w !! new_uid env email = None ->
            auth env2 = true -> verdict env2 email password = Return p ->
            uid p = new_uid env email ->
            getIdToken_fault env2 (uid p) = None ->
            fst (signIn env2 email password w') = Return (synthesized p)).
  { intros w' Husers Hnone Hauth2 Hverdict2 Huid Htoken2.
    apply signIn_synthesizes; try assumption.
    left. now rewrite Husers, Huid. }
  destruct (updateProfile_fault env (new_uid env email)) as [e|] eqn:Hupdate.
  { eexists _, _. split; [apply signUp_unnamed; eassumption |].
    split; [cbn; rewrite lookup_insert_eq; eauto |].
    split; [eexists; split; reflexivity |].
    split; [reflexivity |]. now apply Hsign. }
  destruct (db env) eqn:Hdb.
  2: { eexists _, _. split; [apply signUp_no_store; eassumption |].
       split; [rewrite renamed_account; eauto |].
       split; [eexists; split; [apply renamed_currentUser | reflexivity] |].
       split; [reflexivity |]. now apply Hsign. }
  destruct (setDoc_fault env (new_uid env email)) as [e|] eqn:Hwrite.
  2: { destruct Hcase as [[? ?] | [? | [? ?]]]; discriminate. }
  eexists _, _. split; [apply signUp_unwritten; eassumption |].
  split; [cbn -[renamed]; rewrite renamed_account; eauto |].
  split; [eexists; split; [apply renamed_currentUser | reflexivity] |].
  split; [reflexivity |]. now apply Hsign.
Qed.

Lemma signUp_failure_leaves_account_witness :
  let env := write_refused_for "uid:office@x.com" in
  let p := sample_principal "office@x.com" in
  exists e w',
    signUp env "office@x.com" "pw" "Kim" admin empty_world = (Throw e, w') /\
    is_Some (accounts w' !! "office@x.com") /\
    (exists q, currentUser w' = Some q /\ uid q = new_uid env "office@x.com") /\
    users w' = users empty_world /\
    (users empty_world !! new_uid env "office@x.com" = None ->
     auth healthy = true -> verdict healthy "office@x.com" "pw" = Return p ->
     uid p = new_uid env "office@x.com" ->
     getIdToken_fault healthy (uid p) = None ->
     fst (signIn healthy "office@x.com" "pw" w') = Return (synthesized p)).
Proof.
  apply (signUp_failure_leaves_account
           (write_refused_for "uid:office@x.com") healthy empty_world
           "office@x.com" "pw" "Kim" admin (sample_principal "office@x.com"));
    try reflexivity.
  right. right. vm_compute. eexists. reflexivity.
Defined.

Example signUp_admin_signs_in_as_operator :
  let w' := snd (signUp (write_refused_for "uid:office@x.com")
                   "office@x.com" "pw" "Kim" admin empty_world) in
  fst (signUp (write_refused_for "uid:office@x.com")
         "office@x.com" "pw" "Kim" admin empty_world)
    = Throw permission_denied /\
  user_role <$> fst_return (signIn healthy "office@x.com" "pw" w')
    = Some (Some operator).
Proof. cbn zeta. split; vm_compute; reflexivity. Qed.

(** ** Sign-out *)

Lemma signOutUser_run env clear fault w :
  signOutUser env clear fault w =
  let w1 := set_sessionStorage (delete "user-authenticated-this-session")
              (set_persistentAuth clear (marked w)) in
  if auth env
  then match fault with
       | Some e => (Throw e, w1)
       | None => (Return tt, set_currentUser (fun _ => None) w1)
       end
  else (Return tt, w1).
Proof.
  unfold signOutUser, try_catch, bind, sessionStorage_setItem,
    sessionStorage_removeItem, effect, signOut.
  cbn. destruct (auth env); [| reflexivity].
  destruct fault; reflexivity.
Qed.

(** X11. [signOutUser] clears the local session before it asks the
    provider, so whatever the provider answers - also when its sign-out
    throws, and that error reaches the caller unchanged - the
    session-authenticated marker is gone, the explicit-action marker is
    set, the cache has been cleared; when it throws, the principal is
    still signed in at the provider.  The store is never involved. *)
Theorem signOutUser_clears_session_first env clear fault w :
  let r := fst (signOutUser env clear fault w) in
  let w' := snd (signOutUser env clear fault w) in
  sessionStorage w' !! "user-authenticated-this-session" = None /\
  sessionStorage w' !! "explicit-auth-action" = Some "true" /\
  persistentAuth w' = clear (persistentAuth w) /\
  users w' = users w /\ inflight w' = inflight w /\ trace w' = trace w /\
  (forall e, r = Throw e ->
     auth env = true /\ fault = Some e /\ currentUser w' = currentUser w) /\
  (r = Return tt ->
     auth env = false \/ (fault = None /\ currentUser w' = None)).
Proof.
  cbn zeta. rewrite signOutUser_run. cbn zeta.
  destruct (auth env); [destruct fault as [e0|] |]; cbn [fst snd];
    (split; [cbn; apply lookup_delete_eq |]);
    (split; [cbn; rewrite lookup_delete_ne by discriminate;
             apply lookup_insert_eq |]);
    do 4 (split; [reflexivity |]).
  - split; [now intros e [= <-] | discriminate].
  - split; [discriminate | intros _; now right].
  - split; [discriminate | intros _; now left].
Qed.

(** X12. After a [signOutUser] that returned normally, the current-user
    query answers null without reading the store - also when nothing was
    signed out because the handle is null. *)
Theorem getCurrentUser_after_signOutUser env clear fault w :
  fst (signOutUser env clear fault w) = Return tt ->
  getCurrentUser env (snd (signOutUser env clear fault w))
  = (Return None, snd (signOutUser env clear fault w)).
Proof.
  rewrite signOutUser_run. cbn zeta.
  destruct (auth env) eqn:Hauth; [destruct fault as [e0|] |]; cbn [fst snd];
    try discriminate; intros _.
  - apply getCurrentUser_no_principal. now right.
  - apply getCurrentUser_no_principal. now left.
Qed.

Lemma getCurrentUser_after_signOutUser_witness :
  let w := snd (signIn healthy "sara@aspcranes.com" "manager123" seeded_world) in
  currentUser w = Some (sample_principal "sara@aspcranes.com") /\
  getCurrentUser healthy (snd (signOutUser healthy (fun _ => None) None w))
  = (Return None, snd (signOutUser healthy (fun _ => None) None w)).
Proof.
  cbn zeta. split; [vm_compute; reflexivity |].
  apply (getCurrentUser_after_signOutUser healthy (fun _ => None) None
           (snd (signIn healthy "sara@aspcranes.com" "manager123"
                   seeded_world))).
  vm_compute. reflexivity.
Defined.

(** A sign-out that the provider fails: the local session is gone, the
    principal is still there. *)
Example signOutUser_failed :
  let w := snd (signIn store_down "sara@aspcranes.com" "manager123"
                  empty_world) in
  let w' := snd (signOutUser healthy (fun _ => None) (Some unavailable) w) in
  sessionStorage w !! "user-authenticated-this-session" = Some "true" /\
  fst (signOutUser healthy (fun _ => None) (Some unavailable) w)
    = Throw unavailable /\
  sessionStorage w' !! "user-authenticated-this-session" = None /\
  persistentAuth w' = None /\
  currentUser w' = Some (sample_principal "sara@aspcranes.com").
Proof. cbn zeta. repeat split; vm_compute; reflexivity. Qed.

(** ** Profile update: beyond the merge *)

Lemma merge_doc_idempotent old new :
  merge_doc (merge_doc old new) new = merge_doc old new.
Proof.
  unfold merge_doc. cbn.
  destruct (d_id new), (d_name new), (d_email new), (d_role new),
    (d_createdAt new); reflexivity.
Qed.

Lemma written_idempotent data old :
  written true data (Some (written true data old)) = written true data old.
Proof.
  destruct old as [d|]; cbn.
  - apply merge_doc_idempotent.
  - unfold merge_doc.
    destruct data as [[?|] [?|] [?|] [?|] [?|]]; reflexivity.
Qed.

(** X13. [updateUserProfile] on an id that has no document creates one
    that holds just the supplied fields, and returns them with the rest
    undefined.  A sign-in of that principal then finds this document and
    returns it as it is: the missing name, email or role are not filled
    in from the principal or by role inference. *)
Theorem updateUserProfile_creates_partial_profile env env2 w userId updates
    email password p :
  db env = true -> setDoc_fault env userId = None ->
  getDoc_fault env userId = None ->
  users w !! userId = None ->
  let partial := {| user_id := userId; user_name := upd_name updates;
                    user_email := upd_email updates;
                    user_role := upd_role updates |} in
  let w' := snd (updateUserProfile env userId updates w) in
  fst (updateUserProfile env userId updates w) = Return partial /\
  users w' !! userId
    = Some {| d_id := upd_id updates; d_name := upd_name updates;
              d_email := upd_email updates; d_role := upd_role updates;
              d_createdAt := None |} /\
  (auth env2 = true -> verdict env2 email password = Return p ->
   uid p = userId -> getIdToken_fault env2 (uid p) = None ->
   db env2 = true -> getDoc_fault env2 (uid p) = None ->
   fst (signIn env2 email password w') = Return partial).
Proof.
  intros Hdb Hwrite Hread Hnone partial w'. subst partial w'.
  rewrite updateUserProfile_run by assumption.
  rewrite Hwrite. cbn zeta. rewrite Hread, Hnone. cbn [fst snd written].
  split; [reflexivity |].
  split; [cbn; rewrite Hnone; apply lookup_insert_eq |].
  intros Hauth2 Hverdict2 Huid Htoken2 Hdb2 Hread2.
  rewrite (signIn_found env2 _ email password p Hauth2 Hverdict2 Htoken2
             (partial_doc updates) Hdb2 Hread2).
  - cbn. unfold stored. now rewrite Huid.
  - cbn. rewrite Hnone, Huid. apply lookup_insert_eq.
Qed.

Lemma updateUserProfile_creates_partial_profile_witness :
  let updates := {| upd_id := None; upd_name := None; upd_email := None;
                    upd_role := Some admin |} in
  let partial := {| user_id := "uid:kim@x.com"; user_name := upd_name updates;
                    user_email := upd_email updates;
                    user_role := upd_role updates |} in
  let w' := snd (updateUserProfile healthy "uid:kim@x.com" updates empty_world) in
  fst (updateUserProfile healthy "uid:kim@x.com" updates empty_world)
    = Return partial /\
  users w' !! "uid:kim@x.com"
    = Some {| d_id := upd_id updates; d_name := upd_name updates;
              d_email := upd_email updates; d_role := upd_role updates;
              d_createdAt := None |} /\
  (auth healthy = true ->
   verdict healthy "kim@x.com" "pw" = Return (sample_principal "kim@x.com") ->
   uid (sample_principal "kim@x.com") = "uid:kim@x.com" ->
   getIdToken_fault healthy (uid (sample_principal "kim@x.com")) = None ->
   db healthy = true ->
   getDoc_fault healthy (uid (sample_principal "kim@x.com")) = None ->
   fst (signIn healthy "kim@x.com" "pw" w') = Return partial).
Proof.
  apply (updateUserProfile_creates_partial_profile healthy healthy empty_world
           "uid:kim@x.com"
           {| upd_id := None; upd_name := None; upd_email := None;
              upd_role := Some admin |}
           "kim@x.com" "pw" (sample_principal "kim@x.com"));
    reflexivity.
Defined.

(** X14. [updateUserProfile] is idempotent: applying the same partial a
    second time returns the same profile and leaves the store as the
    first application left it, whether or not a document existed
    before. *)
Theorem updateUserProfile_idempotent env1 env2 w userId updates :
  db env1 = true -> setDoc_fault env1 userId = None ->
  getDoc_fault env1 userId = None ->
  db env2 = true -> setDoc_fault env2 userId = None ->
  getDoc_fault env2 userId = None ->
  exists user w1 w2,
    updateUserProfile env1 userId updates w = (Return user, w1) /\
    updateUserProfile env2 userId updates w1 = (Return user, w2) /\
    users w2 = users w1.
Proof.
  intros Hdb1 Hwrite1 Hread1 Hdb2 Hwrite2 Hread2.
  eexists _, _, _. split.
  { rewrite updateUserProfile_run by assumption.
    rewrite Hwrite1. cbn zeta. rewrite Hread1. reflexivity. }
  split.
  { rewrite updateUserProfile_run by assumption.
    rewrite Hwrite2. cbn zeta. rewrite Hread2. cbn [users set_users emit store_write].
    rewrite lookup_insert_eq, written_idempotent. reflexivity. }
  cbn [users set_users emit store_write].
  rewrite lookup_insert_eq, written_idempotent.
  apply insert_insert_eq.
Qed.

Lemma updateUserProfile_idempotent_witness :
  exists user w1 w2,
    updateUserProfile healthy "uid:mike@aspcranes.com"
      {| upd_id := None; upd_name := Some "Michael"; upd_email := None;
         upd_role := Some operations_manager |} seeded_world
      = (Return user, w1) /\
    updateUserProfile healthy "uid:mike@aspcranes.com"
      {| upd_id := None; upd_name := Some "Michael"; upd_email := None;
         upd_role := Some operations_manager |} w1
      = (Return user, w2) /\
    users w2 = users w1.
Proof.
  apply (updateUserProfile_idempotent healthy healthy seeded_world
           "uid:mike@aspcranes.com"); reflexivity.
Defined.

(** X15. The errors of [updateUserProfile] reach the caller as they are,
    and each tells how far the update got: without a store handle the
    fixed message, nothing issued and nothing changed; a refused write,
    the store's error and the store unchanged; a refused read-back, the
    store's error with the merge already in the store.  The error "User
    data not found after update" is never thrown: the write leaves a
    document for the read-back to find. *)
Theorem updateUserProfile_errors env w userId updates e :
  fst (updateUserProfile env userId updates w) = Throw e ->
  let w' := snd (updateUserProfile env userId updates w) in
  (db env = false /\ w' = w /\
   e = new_Error "Failed to create document reference: Firestore not initialized")
  \/ (db env = true /\ setDoc_fault env userId = Some e /\ users w' = users w /\
      trace w' = (trace w ++ [SetDoc userId (partial_doc updates) true])%list)
  \/ (db env = true /\ setDoc_fault env userId = None /\
      getDoc_fault env userId = Some e /\
      users w' = <[userId := written true (partial_doc updates)
                               (users w !! userId)]> (users w)).
Proof.
  destruct (db env) eqn:Hdb.
  - rewrite updateUserProfile_run by assumption.
    destruct (setDoc_fault env userId) as [e1|] eqn:Hwrite.
    + cbn. intros [= <-]. right. left. now repeat split.
    + cbn zeta. destruct (getDoc_fault env userId) as [e2|] eqn:Hread.
      * cbn. intros [= <-]. right. right. now repeat split.
      * discriminate.
  - rewrite updateUserProfile_no_store by assumption.
    cbn. intros [= <-]. left. now repeat split.
Qed.

Lemma updateUserProfile_errors_witness :
  let w' := snd (updateUserProfile read_only_store "uid:mike@aspcranes.com"
                   {| upd_id := None; upd_name := None; upd_email := None;
                      upd_role := Some admin |} seeded_world) in
  (db read_only_store = false /\ w' = seeded_world /\
   permission_denied
   = new_Error "Failed to create document reference: Firestore not initialized")
  \/ (db read_only_store = true /\
      setDoc_fault read_only_store "uid:mike@aspcranes.com"
        = Some permission_denied /\
      users w' = users seeded_world /\
      trace w' = (trace seeded_world ++
                  [SetDoc "uid:mike@aspcranes.com"
                     (partial_doc {| upd_id := None; upd_name := None;
                                     upd_email := None;
                                     upd_role := Some admin |}) true])%list)
  \/ (db read_only_store = true /\
      setDoc_fault read_only_store "uid:mike@aspcranes.com" = None /\
      getDoc_fault read_only_store "uid:mike@aspcranes.com"
        = Some permission_denied /\
      users w' = <["uid:mike@aspcranes.com" :=
                    written true
                      (partial_doc {| upd_id := None; upd_name := None;
                                      upd_email := None;
                                      upd_role := Some admin |})
                      (users seeded_world !! "uid:mike@aspcranes.com")]>
                   (users seeded_world)).
Proof.
  apply (updateUserProfile_errors read_only_store seeded_world
           "uid:mike@aspcranes.com"
           {| upd_id := None; upd_name := None; upd_email := None;
              upd_role := Some admin |} permission_denied).
  vm_compute. reflexivity.
Defined.

(** ** The seeder: a first run, and a fatal error *)

Section Provisioning.

Context (env : Env).
Hypothesis Hclean : no_faults env.

(** With every service answering, a fresh entry is created in full. *)
Lemma createInitialUser_fresh email password name role w :
  accounts w !! email = None ->
  createInitialUser env email password name role w =
  (Return (Some (signUp_user env email name role)),
   store_write (new_uid env email) (signUp_doc env email name role) false
     (emit (SetDoc (new_uid env email) (signUp_doc env email name role) false)
        (renamed env email password name w))).
Proof.
  destruct Hclean as (Hauth & Hdb & Hcreate & Hupdate & Hwrite).
  intros Hfresh.
  unfold createInitialUser, try_catch, bind, createUserWithEmailAndPassword,
    updateProfile, doc, setDoc, remote.
  rewrite Hauth, Hcreate, Hfresh. cbn [negb uid].
  rewrite Hupdate, Hdb. cbn [ret]. rewrite Hwrite. reflexivity.
Qed.

Lemma rename_other id name q : uid q <> id -> rename id name q = q.
Proof. intros Hne. unfold rename. now rewrite decide_False. Qed.

Lemma for_of_provisions l :
  forall w,
    localStorage w !! rate_limit_flag <> Some "true" ->
    List.NoDup (map iu_email l) -> List.NoDup (uids env l) ->
    (forall u, In u l -> accounts w !! iu_email u = None) ->
    exists w',
      for_of env l w = (Return Next, w') /\
      (forall u, In u l ->
         accounts w' !! iu_email u = Some (provisioned_principal env u) /\
         users w' !! new_uid env (iu_email u) = Some (provisioned_doc env u)) /\
      (forall k q, accounts w !! k = Some q -> ~ In k (map iu_email l) ->
                   ~ In (uid q) (uids env l) -> accounts w' !! k = Some q) /\
      (forall k, accounts w !! k = None -> ~ In k (map iu_email l) ->
                 accounts w' !! k = None) /\
      (forall id, ~ In id (uids env l) -> users w' !! id = users w !! id).
Proof.
  induction l as [|u l IH]; intros w Hflag Hemails Huids Hfresh.
  - exists w. split; [reflexivity |].
    split; [intros u [] |]. now repeat split.
  - change (map iu_email (u :: l)) with (iu_email u :: map iu_email l)
      in Hemails |- *.
    change (uids env (u :: l)) with (new_uid env (iu_email u) :: uids env l)
      in Huids |- *.
    destruct (proj1 (NoDup_cons_iff _ _) Hemails) as [Hemail Hemails'].
    destruct (proj1 (NoDup_cons_iff _ _) Huids) as [Huid Huids'].
    pose (w1 := emit (SetTimeout 1500)
            (store_write (new_uid env (iu_email u))
               (signUp_doc env (iu_email u) (iu_name u) (iu_role u)) false
               (emit (SetDoc (new_uid env (iu_email u))
                        (signUp_doc env (iu_email u) (iu_name u) (iu_role u))
                        false)
                  (renamed env (iu_email u) (iu_password u) (iu_name u) w)))).
    assert (Hstep : seed_step env u w = (Return Next, w1)).
    { rewrite seed_step_unflagged by assumption.
      rewrite createInitialUser_fresh by (apply Hfresh; now left).
      reflexivity. }
    assert (Hacc : forall k, k <> iu_email u ->
              accounts w1 !! k
              = rename (new_uid env (iu_email u)) (iu_name u)
                  <$> accounts w !! k).
    { intros k Hk. cbn. rewrite lookup_fmap.
      now rewrite lookup_insert_ne by congruence. }
    destruct (IH w1) as (w' & Hrun & Hall & Hkept & Hnone & Hdocs);
      [exact Hflag | exact Hemails' | exact Huids' | |].
    { intros v Hv. rewrite Hacc.
      - rewrite (Hfresh v) by now right. reflexivity.
      - intros Heq. apply Hemail. rewrite <- Heq. now apply in_map. }
    exists w'. split.
    { cbn [for_of]. unfold bind. rewrite Hstep. exact Hrun. }
    split; [| split; [| split]].
    + intros v [<- | Hv]; [| now apply Hall].
      split.
      * apply Hkept; [apply renamed_account | exact Hemail | exact Huid].
      * rewrite Hdocs by exact Huid. cbn. apply lookup_insert_eq.
    + intros k q Hq Hk Hquid.
      apply not_in_cons in Hk as [Hk Hk'].
      apply not_in_cons in Hquid as [Hquid Hquid'].
      apply Hkept; [| exact Hk' | exact Hquid'].
      rewrite Hacc by exact Hk. rewrite Hq. cbn.
      f_equal. now apply rename_other.
    + intros k Hk Hnot. apply not_in_cons in Hnot as [Hnot Hnot'].
      apply Hnone; [| exact Hnot']. rewrite Hacc by exact Hnot.
      now rewrite Hk.
    + intros id Hid. apply not_in_cons in Hid as [Hid Hid'].
      rewrite Hdocs by exact Hid'.
      cbn. apply lookup_insert_ne. congruence.
Qed.

End Provisioning.

(** X16. A first run of the seeder on a system that has none of the
    four accounts, with every service answering and the provider giving
    the accounts ids of their own, returns normally and provisions every
    entry in full: the account exists under its email with the listed
    display name, and the store holds under the account's id a profile
    with the listed name, email and role.  Documents under other ids are
    untouched. *)
Theorem setupInitialUsers_provisions env w :
  no_faults env ->
  localStorage w !! rate_limit_flag <> Some "true" ->
  List.NoDup (map (fun u => new_uid env (iu_email u)) INITIAL_USERS) ->
  (forall u, In u INITIAL_USERS -> accounts w !! iu_email u = None) ->
  exists w',
    setupInitialUsers env w = (Return tt, w') /\
    (forall u, In u INITIAL_USERS ->
       accounts w' !! iu_email u
         = Some {| uid := new_uid env (iu_email u);
                   p_email := Some (iu_email u);
                   displayName := Some (iu_name u) |} /\
       users w' !! new_uid env (iu_email u)
         = Some {| d_id := Some (new_uid env (iu_email u));
                   d_name := Some (iu_name u);
                   d_email := Some (iu_email u);
                   d_role := Some (iu_role u);
                   d_createdAt := Some serverTimestamp |}) /\
    (forall id,
       ~ In id (map (fun u => new_uid env (iu_email u)) INITIAL_USERS) ->
       users w' !! id = users w !! id).
Proof.
  intros Hclean Hflag Huids Hfresh.
  destruct (for_of_provisions env Hclean INITIAL_USERS w Hflag)
    as (w' & Hrun & Hall & _ & _ & Hdocs); [| exact Huids | exact Hfresh |].
  { repeat constructor; cbn; intuition discriminate. }
  exists w'. split; [| split; [exact Hall | exact Hdocs]].
  unfold setupInitialUsers, setupUsers, try_catch, bind. now rewrite Hrun.
Qed.

Lemma healthy_no_faults : no_faults healthy.
Proof. now repeat split. Qed.

Lemma setupInitialUsers_provisions_witness :
  exists w',
    setupInitialUsers healthy empty_world = (Return tt, w') /\
    (forall u, In u INITIAL_USERS ->
       accounts w' !! iu_email u
         = Some {| uid := new_uid healthy (iu_email u);
                   p_email := Some (iu_email u);
                   displayName := Some (iu_name u) |} /\
       users w' !! new_uid healthy (iu_email u)
         = Some {| d_id := Some (new_uid healthy (iu_email u));
                   d_name := Some (iu_name u);
                   d_email := Some (iu_email u);
                   d_role := Some (iu_role u);
                   d_createdAt := Some serverTimestamp |}) /\
    (forall id,
       ~ In id (map (fun u => new_uid healthy (iu_email u)) INITIAL_USERS) ->
       users w' !! id = users empty_world !! id).
Proof.
  apply (setupInitialUsers_provisions healthy empty_world).
  - exact healthy_no_faults.
  - vm_compute. discriminate.
  - vm_compute. repeat constructor; cbn; intuition discriminate.
  - intros u _. reflexivity.
Defined.

(** X17. A seeded account signs in with the role it was provisioned
    with: after such a first run, a sign-in to which the provider hands
    the seeded account and the store its document returns the listed
    name, email and role, whatever role inference would make of the
    email. *)
Theorem signIn_after_seeding env env2 w u p :
  no_faults env ->
  localStorage w !! rate_limit_flag <> Some "true" ->
  List.NoDup (map (fun u => new_uid env (iu_email u)) INITIAL_USERS) ->
  (forall u, In u INITIAL_USERS -> accounts w !! iu_email u = None) ->
  In u INITIAL_USERS ->
  auth env2 = true ->
  verdict env2 (iu_email u) (iu_password u) = Return p ->
  uid p = new_uid env (iu_email u) ->
  getIdToken_fault env2 (uid p) = None ->
  db env2 = true -> getDoc_fault env2 (uid p) = None ->
  fst (signIn env2 (iu_email u) (iu_password u)
         (snd (setupInitialUsers env w)))
  = Return {| user_id := new_uid env (iu_email u);
              user_name := Some (iu_name u);
              user_email := Some (iu_email u);
              user_role := Some (iu_role u) |}.
Proof.
  intros Hclean Hflag Huids Hfresh Hu Hauth2 Hverdict2 Huid Htoken2 Hdb2 Hread2.
  destruct (for_of_provisions env Hclean INITIAL_USERS w Hflag)
    as (w' & Hrun & Hall & _); [| exact Huids | exact Hfresh |].
  { repeat constructor; cbn; intuition discriminate. }
  assert (Hsetup : setupInitialUsers env w = (Return tt, w')).
  { unfold setupInitialUsers, setupUsers, try_catch, bind. now rewrite Hrun. }
  rewrite Hsetup. cbn [snd].
  destruct (Hall u Hu) as [_ Hdoc]. rewrite <- Huid in Hdoc.
  rewrite (signIn_found env2 w' _ _ p Hauth2 Hverdict2 Htoken2 _ Hdb2 Hread2 Hdoc).
  cbn. unfold stored. now rewrite Huid.
Qed.

Lemma signIn_after_seeding_witness :
  let u := {| iu_email := "john@aspcranes.com"; iu_password := "sales123";
              iu_name := "John Sales"; iu_role := sales_agent |} in
  fst (signIn healthy (iu_email u) (iu_password u)
         (snd (setupInitialUsers healthy empty_world)))
  = Return {| user_id := new_uid healthy (iu_email u);
              user_name := Some (iu_name u);
              user_email := Some (iu_email u);
              user_role := Some (iu_role u) |}.
Proof.
  apply (signIn_after_seeding healthy healthy empty_world
           {| iu_email := "john@aspcranes.com"; iu_password := "sales123";
              iu_name := "John Sales"; iu_role := sales_agent |}
           (sample_principal "john@aspcranes.com")).
  - exact healthy_no_faults.
  - vm_compute. discriminate.
  - vm_compute. repeat constructor; cbn; intuition discriminate.
  - intros u _. reflexivity.
  - cbn. right. now left.
  - reflexivity.
  - reflexivity.
  - reflexivity.
  - reflexivity.
  - reflexivity.
  - reflexivity.
Defined.

(** [createInitialUser] turns "already in use" into a normal completion,
    so what it throws is never that error. *)
Lemma createInitialUser_throws_other env email password name role w e w' :
  createInitialUser env email password name role w = (Throw e, w') ->
  code_is "auth/email-already-in-use" e = false.
Proof.
  unfold createInitialUser, try_catch.
  match goal with
  | |- context [bind ?m ?k w] => destruct (bind m k w) as [[r|e0] w0]
  end; [discriminate |].
  destruct (code_is "auth/email-already-in-use" e0) eqn:Hcode; cbn;
    [discriminate |].
  now intros [= <- _].
Qed.

(** X18. An error of [createInitialUser] other than the rate limit is
    fatal to the run: when the entries before the k-th have been gone
    through and the k-th fails with such an error, [setupInitialUsers]
    throws that very error, asks the provider for nothing behind the
    k-th entry, and - unlike at a rate limit - leaves the sticky flag
    unset, so that a later run tries again. *)
Theorem setupInitialUsers_fatal_error_aborts env w k u w1 wk e :
  INITIAL_USERS !! k = Some u ->
  localStorage w !! rate_limit_flag <> Some "true" ->
  for_of env (take k INITIAL_USERS) w = (Return Next, w1) ->
  createInitialUser env (iu_email u) (iu_password u) (iu_name u) (iu_role u) w1
    = (Throw e, wk) ->
  code e <> Some "auth/too-many-requests" ->
  setupInitialUsers env w = (Throw e, wk) /\
  localStorage wk = localStorage w /\
  attempted (trace wk)
    = (attempted (trace w) ++ map iu_email (take (S k) INITIAL_USERS))%list.
Proof.
  intros Hk Hflag Hpre Hcreate Hcode.
  destruct (for_of_next env _ _ _ Hflag Hpre) as [Hls Hatt].
  pose proof (createInitialUser_frame env (iu_email u) (iu_password u)
                (iu_name u) (iu_role u) w1) as [Hls' Hatt'].
  rewrite Hcreate in Hls', Hatt'. cbn [snd] in Hls', Hatt'.
  split; [| split].
  - unfold setupInitialUsers, setupUsers, try_catch, bind at 1.
    rewrite <- (take_drop_middle _ _ _ Hk) at 1.
    rewrite (for_of_app env _ _ _ _ Hpre). cbn [for_of]. unfold bind.
    rewrite seed_step_unflagged by now rewrite Hls.
    rewrite Hcreate.
    unfold code_is at 1. rewrite bool_decide_eq_false_2 by exact Hcode.
    now rewrite (createInitialUser_throws_other _ _ _ _ _ _ _ _ Hcreate).
  - congruence.
  - rewrite (take_S_r _ _ _ Hk), map_app, Hatt', Hatt. cbn.
    now rewrite <- app_assoc.
Qed.

Lemma setupInitialUsers_fatal_error_aborts_witness :
  let env := write_refused_for "uid:john@aspcranes.com" in
  let w1 := snd (for_of env (take 1 INITIAL_USERS) empty_world) in
  let wk := snd (createInitialUser env "john@aspcranes.com" "sales123"
                   "John Sales" sales_agent w1) in
  setupInitialUsers env empty_world = (Throw permission_denied, wk) /\
  localStorage wk = localStorage empty_world /\
  attempted (trace wk)
    = (attempted (trace empty_world) ++
       map iu_email (take 2 INITIAL_USERS))%list.
Proof.
  apply (setupInitialUsers_fatal_error_aborts
           (write_refused_for "uid:john@aspcranes.com") empty_world 1
           {| iu_email := "john@aspcranes.com"; iu_password := "sales123";
              iu_name := "John Sales"; iu_role := sales_agent |}
           (snd (for_of (write_refused_for "uid:john@aspcranes.com")
                   (take 1 INITIAL_USERS) empty_world))
           (snd (createInitialUser (write_refused_for "uid:john@aspcranes.com")
                   "john@aspcranes.com" "sales123" "John Sales" sales_agent
                   (snd (for_of (write_refused_for "uid:john@aspcranes.com")
                           (take 1 INITIAL_USERS) empty_world))))
           permission_denied).
  - reflexivity.
  - vm_compute. discriminate.
  - vm_compute. reflexivity.
  - vm_compute. reflexivity.
  - vm_compute. discriminate.
Defined.

(** ** Role inference and the fallback name, in terms of the strings *)

Lemma startsWith_iff sub s :
  Js.startsWith sub s = true <-> exists post, s = sub ++ post.
Proof.
  revert s. induction sub as [|a sub IH]; intros s.
  - split; [intros _; now exists s | reflexivity].
  - destruct s as [|b s]; cbn.
    + split; [discriminate | intros [post [=]]].
    + rewrite andb_true_iff, Ascii.eqb_eq, IH. split.
      * intros [-> [post ->]]. now exists post.
      * intros [post [= -> ->]]. split; [reflexivity | now exists post].
Qed.

Lemma includes_iff sub s :
  Js.includes sub s = true <-> exists pre post, s = pre ++ sub ++ post.
Proof.
  induction s as [|c s IH].
  - cbn. rewrite orb_false_r, startsWith_iff. split.
    + intros [post ->]. now exists "", post.
    + intros [pre [post H]]. destruct pre; [now exists post |].
      discriminate H.
  - cbn [Js.includes]. rewrite orb_true_iff, startsWith_iff, IH. split.
    + intros [[post ->] | [pre [post ->]]].
      * now exists "", post.
      * now exists (String c pre), post.
    + intros [pre [post H]]. destruct pre as [|c' pre].
      * left. now exists post.
      * right. injection H as -> ->. now exists pre, post.
Qed.

(** X19. Role inference makes exactly those emails admin that contain
    the text "admin" somewhere, in lower case, whatever stands before
    and after it; [includes] is containment of a contiguous piece. *)
Theorem determineRoleFromEmail_admin_iff (email : option string) :
  determineRoleFromEmail email = admin <->
  exists pre post, email = Some (pre ++ "admin" ++ post).
Proof.
  split.
  - destruct email as [e|]; [| discriminate].
    destruct (Js.includes "admin" e) eqn:Hadmin.
    + intros _. apply includes_iff in Hadmin as [pre [post ->]]. eauto.
    + destruct e as [|c e]; [discriminate |].
      unfold determineRoleFromEmail. rewrite Hadmin.
      destruct (Js.includes "sales" _); [discriminate |].
      destruct (_ || _); discriminate.
  - intros [pre [post ->]].
    assert (Hadmin : Js.includes "admin" (pre ++ "admin" ++ post) = true)
      by (apply includes_iff; eauto).
    destruct (pre ++ "admin" ++ post) as [|c e] eqn:He.
    + destruct pre; discriminate He.
    + unfold determineRoleFromEmail. now rewrite Hadmin.
Qed.

Lemma split_at_0_no_at s : Js.includes "@" (Js.split_at_0 s) = false.
Proof.
  induction s as [|c s IH]; [reflexivity |].
  cbn [Js.split_at_0]. destruct (Ascii.eqb c "@") eqn:Hc; [reflexivity |].
  cbn [Js.includes Js.startsWith]. rewrite IH.
  rewrite Ascii.eqb_sym, Hc. reflexivity.
Qed.

(** X20. The name of a synthesized profile is never empty; and unless it
    is the principal's display name, it contains no at-sign: it is the
    text of the email before the first one, or "User". *)
Theorem fallbackName_nonempty (p : Principal) :
  fallbackName p <> "" /\
  (Js.truthy (displayName p) = false ->
   Js.includes "@" (fallbackName p) = false /\
   (fallbackName p = "User" \/
    exists e, p_email p = Some e /\ fallbackName p = Js.split_at_0 e)).
Proof.
  unfold fallbackName, Js.or, Js.or_lit.
  destruct (displayName p) as [[|c s]|]; cbn [Js.truthy].
  - destruct (p_email p) as [e|]; cbn.
    + destruct (Js.split_at_0 e) as [|c s] eqn:He.
      * split; [discriminate |]. intros _. split; [reflexivity | now left].
      * split; [discriminate |]. intros _. split.
        -- rewrite <- He. apply split_at_0_no_at.
        -- right. exists e. now rewrite He.
    + split; [discriminate |]. intros _. split; [reflexivity | now left].
  - split; [discriminate | discriminate].
  - destruct (p_email p) as [e|]; cbn.
    + destruct (Js.split_at_0 e) as [|c s] eqn:He.
      * split; [discriminate |]. intros _. split; [reflexivity | now left].
      * split; [discriminate |]. intros _. split.
        -- rewrite <- He. apply split_at_0_no_at.
        -- right. exists e. now rewrite He.
    + split; [discriminate |]. intros _. split; [reflexivity | now left].
Qed.

(** ** The access policy *)

Lemma role_is_admin_lookup store uid d :
  store !! uid = Some d -> d_role d = Some admin ->
  Rules.isAdmin store (Some uid) = true.
Proof.
  intros Hd Hrole. unfold Rules.isAdmin, Rules.role_is, Rules.getUserData.
  rewrite Hd. now apply bool_decide_eq_true_2.
Qed.

(** X21. The policy refuses every operation on every path to a caller
    who is not authenticated, and allows every read of a document to one
    who is, with no regard to role or to whether the caller has a
    profile. *)
Theorem policy_reads_need_only_authentication store auth path m :
  Rules.allowed store None path m = false /\
  (Rules.is_read m = true ->
   Rules.allowed store auth path m
   = Rules.signed_in auth && bool_decide (2 <= length path)).
Proof.
  split.
  - unfold Rules.allowed.
    destruct path as [|c [|d rest]]; [reflexivity | reflexivity |].
    destruct m, rest, (String.eqb c "users"), (String.eqb c "leads"),
      (String.eqb c "quotations"), (String.eqb c "jobs"),
      (String.eqb c "deals"); reflexivity.
  - intros Hread. unfold Rules.allowed.
    destruct path as [|c [|d rest]];
      [now rewrite andb_false_r | now rewrite andb_false_r |].
    cbn [length]. rewrite bool_decide_eq_true_2 by lia.
    unfold Rules.match_users, Rules.match_sales, Rules.match_open,
      Rules.match_default.
    assert (Hwrite : Rules.is_write m = false) by now destruct m.
    rewrite Hread, Hwrite. cbn [andb orb].
    destruct (Rules.signed_in auth), rest, (String.eqb c "users"),
      (String.eqb c "leads"), (String.eqb c "quotations"),
      (String.eqb c "jobs"), (String.eqb c "deals"); reflexivity.
Qed.

Lemma policy_reads_need_only_authentication_witness :
  Rules.allowed (users seeded_world) None ["jobs"; "j1"] Rules.Get = false /\
  Rules.allowed (users seeded_world) (Some "nobody") ["users"; "uid:admin@aspcranes.com"]
    Rules.Get = true.
Proof.
  split.
  - apply (proj1 (policy_reads_need_only_authentication
                    (users seeded_world) None ["jobs"; "j1"] Rules.Get)).
  - rewrite (proj2 (policy_reads_need_only_authentication
                      (users seeded_world) (Some "nobody")
                      ["users"; "uid:admin@aspcranes.com"] Rules.Get));
      reflexivity.
Defined.

(** X22. Writes to a document of a top-level collection, for an
    authenticated caller: the overlapping rules come down to this.  A
    profile may be written by its owner or by an admin; leads and
    quotations by admins, sales agents and operations managers; jobs and
    deals by every authenticated caller, operators and callers without
    any profile included; everything else by admins only. *)
Theorem policy_write_decision store uid collection document m :
  Rules.is_write m = true ->
  Rules.allowed store (Some uid) [collection; document] m
  = (String.eqb collection "users" && bool_decide (uid = document))
    || ((String.eqb collection "leads" || String.eqb collection "quotations")
        && (Rules.isSalesAgent store (Some uid)
            || Rules.isOperationsManager store (Some uid)))
    || (String.eqb collection "jobs" || String.eqb collection "deals")
    || Rules.isAdmin store (Some uid).
Proof.
  intros Hwrite.
  assert (Hread : Rules.is_read m = false) by now destruct m.
  unfold Rules.allowed, Rules.match_users, Rules.match_sales,
    Rules.match_open, Rules.match_default, Rules.is_owner, Rules.signed_in.
  rewrite Hwrite, Hread. cbn [andb orb].
  destruct (String.eqb collection "users"),
    (String.eqb collection "leads"), (String.eqb collection "quotations"),
    (String.eqb collection "jobs"), (String.eqb collection "deals"),
    (bool_decide (uid = document)), (Rules.isAdmin store (Some uid)),
    (Rules.isSalesAgent store (Some uid)),
    (Rules.isOperationsManager store (Some uid)); reflexivity.
Qed.

Lemma policy_write_decision_witness :
  Rules.allowed (users seeded_world) (Some "uid:mike@aspcranes.com")
    ["deals"; "d1"] Rules.Create = true /\
  Rules.allowed (users seeded_world) (Some "uid:mike@aspcranes.com")
    ["leads"; "l1"] Rules.Create = false /\
  Rules.allowed (users seeded_world) (Some "no-profile")
    ["jobs"; "j1"] Rules.Delete = true /\
  Rules.allowed (users seeded_world) (Some "uid:john@aspcranes.com")
    ["users"; "uid:mike@aspcranes.com"] Rules.Update = false.
Proof.
  split; [| split; [| split]].
  - rewrite (policy_write_decision (users seeded_world)
               "uid:mike@aspcranes.com" "deals" "d1" Rules.Create eq_refl).
    vm_compute. reflexivity.
  - rewrite (policy_write_decision (users seeded_world)
               "uid:mike@aspcranes.com" "leads" "l1" Rules.Create eq_refl).
    vm_compute. reflexivity.
  - rewrite (policy_write_decision (users seeded_world)
               "no-profile" "jobs" "j1" Rules.Delete eq_refl).
    vm_compute. reflexivity.
  - rewrite (policy_write_decision (users seeded_world)
               "uid:john@aspcranes.com" "users" "uid:mike@aspcranes.com"
               Rules.Update eq_refl).
    vm_compute. reflexivity.
Defined.

(** X23. The policy lets every authenticated principal write its own
    profile, role field included, whatever the store holds; and the
    policy takes the role from that very document.  So once
    [updateUserProfile] has returned from giving a principal's own
    document the role admin, the policy allows that principal every
    write on every document. *)
Theorem policy_allows_self_promotion env w uid updates user path m :
  upd_role updates = Some admin ->
  fst (updateUserProfile env uid updates w) = Return user ->
  2 <= length path ->
  (forall store m', Rules.is_write m' = true ->
     Rules.allowed store (Some uid) ["users"; uid] m' = true) /\
  Rules.allowed (users (snd (updateUserProfile env uid updates w)))
    (Some uid) path m = true.
Proof.
  intros Hrole Hrun Hlen. split.
  - intros store m' Hwrite.
    unfold Rules.allowed, Rules.match_users, Rules.is_owner, Rules.signed_in.
    rewrite Hwrite, bool_decide_eq_true_2 by reflexivity.
    cbn. now rewrite orb_true_r.
  - assert (Hadmin : Rules.isAdmin
                       (users (snd (updateUserProfile env uid updates w)))
                       (Some uid) = true).
    { destruct (db env) eqn:Hdb.
      - rewrite updateUserProfile_run in Hrun |- * by assumption.
        destruct (setDoc_fault env uid); [discriminate |].
        cbn zeta in Hrun |- *. cbn [snd].
        apply (role_is_admin_lookup _ _
                 (written true (partial_doc updates) (users w !! uid))).
        + cbn. apply lookup_insert_eq.
        + destruct (users w !! uid) as [d|]; cbn; now rewrite Hrole.
      - rewrite updateUserProfile_no_store in Hrun by assumption.
        discriminate. }
    unfold Rules.allowed.
    destruct path as [|c [|d rest]]; cbn in Hlen; [lia | lia |].
    unfold Rules.match_default. cbn [Rules.signed_in]. rewrite Hadmin.
    destruct (Rules.is_read m) eqn:Hread; cbn; [apply orb_true_r |].
    assert (Hwrite : Rules.is_write m = true) by now destruct m.
    rewrite Hwrite. apply orb_true_r.
Qed.

(** Mike, an operator, may not write leads; he may write his own
    profile; having written the role admin into it, he may. *)
Lemma policy_allows_self_promotion_witness :
  let updates := {| upd_id := None; upd_name := None; upd_email := None;
                    upd_role := Some admin |} in
  Rules.allowed (users seeded_world) (Some "uid:mike@aspcranes.com")
    ["leads"; "l1"] Rules.Create = false /\
  (forall store m', Rules.is_write m' = true ->
     Rules.allowed store (Some "uid:mike@aspcranes.com")
       ["users"; "uid:mike@aspcranes.com"] m' = true) /\
  Rules.allowed
    (users (snd (updateUserProfile healthy "uid:mike@aspcranes.com" updates
                   seeded_world)))
    (Some "uid:mike@aspcranes.com") ["leads"; "l1"] Rules.Create = true.
Proof.
  cbn zeta. split; [vm_compute; reflexivity |].
  apply (policy_allows_self_promotion healthy seeded_world
           "uid:mike@aspcranes.com"
           {| upd_id := None; upd_name := None; upd_email := None;
              upd_role := Some admin |}
           {| user_id := "uid:mike@aspcranes.com";
              user_name := Some "Mike Operator";
              user_email := Some "mike@aspcranes.com";
              user_role := Some admin |}
           ["leads"; "l1"] Rules.Create).
  - reflexivity.
  - vm_compute. reflexivity.
  - cbn. lia.
Defined.

(** ** Sign-in: the session marker and the cache *)

(** X24. The marker "user-authenticated-this-session" and the persistent
    cache are written by the degraded path only.  A sign-in that returns
    the stored profile, or the one it has just written, leaves both as
    they were; a sign-in that returns after the read or the write failed
    sets the marker and caches the returned profile. *)
Theorem signIn_marks_session_only_when_degraded env w email password user w' :
  signIn env email password w = (Return user, w') ->
  if through_store env w (user_id user)
  then persistentAuth w' = persistentAuth w /\
       sessionStorage w'
       = <["explicit-auth-action" := "true"]> (sessionStorage w)
  else persistentAuth w' = Some user /\
       sessionStorage w' !! "user-authenticated-this-session" = Some "true".
Proof.
  unfold through_store.
  signIn_paths env w email password; try discriminate;
    intros [= <- <-]; cbn [user_id stored synthesized andb orb];
    rewrite ?Hread, ?Hdoc, ?Hwrite;
    repeat case_bool_decide; cbn [andb orb];
    try congruence;
    try match goal with
        | H : ~ is_Some (Some _) |- _ => exfalso; apply H; eauto
        | H : is_Some None |- _ => destruct H as [? [=]]
        end;
    (split; [reflexivity |]); first [reflexivity | apply lookup_insert_eq].
Qed.

Lemma signIn_marks_session_only_when_degraded_witness :
  let user := {| user_id := "uid:sara@aspcranes.com";
                 user_name := Some "Sara Manager";
                 user_email := Some "sara@aspcranes.com";
                 user_role := Some operations_manager |} in
  let w' := snd (signIn healthy "sara@aspcranes.com" "manager123" seeded_world) in
  if through_store healthy seeded_world (user_id user)
  then persistentAuth w' = persistentAuth seeded_world /\
       sessionStorage w'
       = <["explicit-auth-action" := "true"]> (sessionStorage seeded_world)
  else persistentAuth w' = Some user /\
       sessionStorage w' !! "user-authenticated-this-session" = Some "true".
Proof.
  apply (signIn_marks_session_only_when_degraded healthy seeded_world
           "sara@aspcranes.com" "manager123").
  vm_compute. reflexivity.
Defined.

Example found_signIn_leaves_session_unmarked :
  let w' := snd (signIn healthy "sara@aspcranes.com" "manager123" seeded_world) in
  through_store healthy seeded_world "uid:sara@aspcranes.com" = true /\
  sessionStorage w' !! "user-authenticated-this-session" = None /\
  persistentAuth w' = None.
Proof. cbn zeta. repeat split; vm_compute; reflexivity. Qed.

(** ** The seeder: the throttle *)

Lemma delays_app t1 t2 : delays (t1 ++ t2) = (delays t1 ++ delays t2)%list.
Proof. unfold delays. apply flat_map_app. Qed.

(** [createInitialUser] itself never waits. *)
Lemma createInitialUser_no_delay env email password name role w :
  delays (trace (snd (createInitialUser env email password name role w)))
  = delays (trace w).
Proof.
  unfold createInitialUser, try_catch, bind, createUserWithEmailAndPassword,
    updateProfile, doc, setDoc, remote.
  destruct (auth env); cbn [negb];
    [destruct (createUser_fault env email) as [e|];
     [| destruct (accounts w !! email);
        [| cbn [uid];
           destruct (updateProfile_fault env (new_uid env email)) as [e|];
           [| destruct (db env); cbn [ret throw];
              [destruct (setDoc_fault env (new_uid env email)) as [e|] |]]]] |];
    repeat match goal with
           | |- context [if code_is ?c ?e then _ else _] =>
               destruct (code_is c e)
           end;
    cbn -[delays]; rewrite !delays_app; cbn; rewrite ?app_nil_r; reflexivity.
Qed.

Lemma seed_step_waits env u w w1 :
  localStorage w !! rate_limit_flag <> Some "true" ->
  seed_step env u w = (Return Next, w1) ->
  localStorage w1 = localStorage w /\
  delays (trace w1) = (delays (trace w) ++ [1500])%list.
Proof.
  intros Hflag Hstep.
  split; [exact (proj1 (seed_step_next env u w w1 Hflag Hstep)) |].
  revert Hstep. rewrite seed_step_unflagged by assumption.
  pose proof (createInitialUser_no_delay env (iu_email u) (iu_password u)
                (iu_name u) (iu_role u) w) as Hd.
  destruct (createInitialUser env (iu_email u) (iu_password u) (iu_name u)
              (iu_role u) w) as [[r|e] w2] eqn:Hcreate; cbn [snd] in Hd.
  - intros [= <-]. cbn -[delays]. now rewrite delays_app, Hd.
  - rewrite (createInitialUser_throws_other _ _ _ _ _ _ _ _ Hcreate).
    destruct (code_is "auth/too-many-requests" e); discriminate.
Qed.

Lemma for_of_waits env l :
  forall w w1,
    localStorage w !! rate_limit_flag <> Some "true" ->
    for_of env l w = (Return Next, w1) ->
    delays (trace w1) = (delays (trace w) ++ repeat 1500 (length l))%list.
Proof.
  induction l as [|u l IH]; intros w w1 Hflag.
  - cbn. intros [= <-]. now rewrite app_nil_r.
  - cbn [for_of]. unfold bind.
    destruct (seed_step env u w) as [[[|]|e] w2] eqn:Hstep; try discriminate.
    intros Hrest.
    destruct (seed_step_waits _ _ _ _ Hflag Hstep) as [Hls Hd].
    rewrite (IH w2 w1) by (rewrite ?Hls; assumption).
    rewrite Hd. cbn. now rewrite <- app_assoc.
Qed.

(** X25. The seeder throttles every entry it gets past, not only the
    ones it creates: a run that is not stopped by flag, rate limit or
    error waits 1500 ms after each of the four entries, so also after
    each account that exists already, and never anywhere else. *)
Theorem setupInitialUsers_waits_after_each_entry env w w' :
  localStorage w !! rate_limit_flag <> Some "true" ->
  for_of env INITIAL_USERS w = (Return Next, w') ->
  setupInitialUsers env w = (Return tt, w') /\
  delays (trace w') = (delays (trace w) ++ [1500; 1500; 1500; 1500])%list.
Proof.
  intros Hflag Hrun. split.
  - unfold setupInitialUsers, setupUsers, try_catch, bind. now rewrite Hrun.
  - now rewrite (for_of_waits env INITIAL_USERS w w' Hflag Hrun).
Qed.

Lemma setupInitialUsers_waits_after_each_entry_witness :
  let w' := snd (for_of healthy INITIAL_USERS seeded_world) in
  setupInitialUsers healthy seeded_world = (Return tt, w') /\
  delays (trace w')
  = (delays (trace seeded_world) ++ [1500; 1500; 1500; 1500])%list.
Proof.
  apply (setupInitialUsers_waits_after_each_entry healthy seeded_world).
  - vm_compute. discriminate.
  - vm_compute. reflexivity.
Defined.

(** * The seeder under a rate limit *)

Section RateLimit.

Context (env : Env).
Hypothesis Hauth : auth env = true.

Lemma goes_through_spec w u :
  goes_through env w u = true <->
  createUser_fault env (iu_email u) = None /\
  (is_Some (accounts w !! iu_email u) \/
   updateProfile_fault env (new_uid env (iu_email u)) = None /\
   db env = true /\
   setDoc_fault env (new_uid env (iu_email u)) = None).
Proof.
  unfold goes_through.
  rewrite andb_true_iff, orb_true_iff, !andb_true_iff, !bool_decide_eq_true.
  tauto.
Qed.

(** A fresh entry whose three calls are accepted is created in full. *)
Lemma createInitialUser_accepted email password name role w :
  createUser_fault env email = None ->
  accounts w !! email = None ->
  updateProfile_fault env (new_uid env email) = None ->
  db env = true ->
  setDoc_fault env (new_uid env email) = None ->
  createInitialUser env email password name role w =
  (Return (Some (signUp_user env email name role)),
   store_write (new_uid env email) (signUp_doc env email name role) false
     (emit (SetDoc (new_uid env email) (signUp_doc env email name role) false)
        (renamed env email password name w))).
Proof.
  intros Hcreate Hfresh Hupdate Hdb Hwrite.
  unfold createInitialUser, try_catch, bind, createUserWithEmailAndPassword,
    updateProfile, doc, setDoc, remote.
  rewrite Hauth, Hcreate, Hfresh. cbn [negb uid].
  rewrite Hupdate, Hdb. cbn [ret]. rewrite Hwrite. reflexivity.
Qed.

(** A rate limit on the creation leaves [createInitialUser] as the
    error it is, and so does one on the display name of the account
    just created. *)
Lemma createInitialUser_creation_limited email password name role w e :
  createUser_fault env email = Some e ->
  code e = Some "auth/too-many-requests" ->
  createInitialUser env email password name role w
  = (Throw e, emit (CreateUserWithEmailAndPassword email password) w).
Proof.
  intros Hcreate Hcode.
  unfold createInitialUser, try_catch, bind, createUserWithEmailAndPassword.
  rewrite Hauth, Hcreate. cbn [negb].
  unfold code_is. rewrite Hcode.
  now rewrite bool_decide_eq_false_2 by discriminate.
Qed.

Lemma createInitialUser_name_limited email password name role w e :
  createUser_fault env email = None ->
  accounts w !! email = None ->
  updateProfile_fault env (new_uid env email) = Some e ->
  code e = Some "auth/too-many-requests" ->
  createInitialUser env email password name role w
  = (Throw e, emit (UpdateProfile (new_uid env email) name)
                (registered env email password w)).
Proof.
  intros Hcreate Hfresh Hupdate Hcode.
  unfold createInitialUser, try_catch, bind, createUserWithEmailAndPassword,
    updateProfile, remote.
  rewrite Hauth, Hcreate, Hfresh. cbn [negb uid].
  rewrite Hupdate.
  unfold code_is. rewrite Hcode.
  now rewrite bool_decide_eq_false_2 by discriminate.
Qed.

(** The entries the services let through are gone through: those with
    an account are skipped, the others are created in full. *)
Lemma for_of_goes_through l :
  forall w,
    localStorage w !! rate_limit_flag <> Some "true" ->
    List.NoDup (map iu_email l) -> List.NoDup (uids env l) ->
    forallb (goes_through env w) l = true ->
    exists w',
      for_of env l w = (Return Next, w') /\
      (forall u, In u l ->
         is_Some (accounts w' !! iu_email u) /\
         (accounts w !! iu_email u = None ->
          accounts w' !! iu_email u = Some (provisioned_principal env u) /\
          users w' !! new_uid env (iu_email u)
            = Some (provisioned_doc env u))) /\
      (forall k, is_Some (accounts w !! k) -> is_Some (accounts w' !! k)) /\
      (forall k q, accounts w !! k = Some q -> ~ In (uid q) (uids env l) ->
                   accounts w' !! k = Some q) /\
      (forall k, accounts w !! k = None -> ~ In k (map iu_email l) ->
                 accounts w' !! k = None) /\
      (forall id, ~ In id (uids env l) -> users w' !! id = users w !! id).
Proof.
  induction l as [|u l IH]; intros w Hflag Hemails Huids Hgo.
  - exists w. split; [reflexivity |].
    split; [intros u [] |]. now repeat split.
  - change (map iu_email (u :: l)) with (iu_email u :: map iu_email l)
      in Hemails |- *.
    change (uids env (u :: l)) with (new_uid env (iu_email u) :: uids env l)
      in Huids |- *.
    destruct (proj1 (NoDup_cons_iff _ _) Hemails) as [Hemail Hemails'].
    destruct (proj1 (NoDup_cons_iff _ _) Huids) as [Huid Huids'].
    cbn [forallb] in Hgo. apply andb_true_iff in Hgo as [Hu Hgo].
    apply goes_through_spec in Hu as [Hcreate Hu].
    assert (Hlater : forall v, In v l -> iu_email v <> iu_email u).
    { intros v Hv Heq. apply Hemail. rewrite <- Heq. now apply in_map. }
    destruct (accounts w !! iu_email u) as [a|] eqn:Ha.
    + (* the account is there: the entry is skipped *)
      assert (Hstep : seed_step env u w = (Return Next, emits (skipped [u]) w)).
      { apply seed_step_exists; [exact Hauth | exact Hflag | exact Hcreate |].
        rewrite Ha. now eexists. }
      destruct (IH (emits (skipped [u]) w))
        as (w' & Hrun & Hall & Hsome & Hkept & Hnone & Hdocs);
        [exact Hflag | exact Hemails' | exact Huids' | exact Hgo |].
      exists w'. split.
      { cbn [for_of]. unfold bind. rewrite Hstep. exact Hrun. }
      split; [| split; [| split; [| split]]].
      * intros v [<- | Hv]; [| now apply Hall].
        split; [| intros Hfresh; congruence].
        apply Hsome. cbn. rewrite Ha. now eexists.
      * exact Hsome.
      * intros k q Hq Hquid. apply not_in_cons in Hquid as [_ Hquid'].
        now apply Hkept.
      * intros k Hk Hnot. apply not_in_cons in Hnot as [_ Hnot'].
        now apply Hnone.
      * intros id Hid. apply not_in_cons in Hid as [_ Hid'].
        now apply Hdocs.
    + (* no account: the entry is created in full *)
      destruct Hu as [[a Hex] | (Hupdate & Hdb & Hwrite)]; [discriminate |].
      pose (w1 := emit (SetTimeout 1500)
              (store_write (new_uid env (iu_email u))
                 (signUp_doc env (iu_email u) (iu_name u) (iu_role u)) false
                 (emit (SetDoc (new_uid env (iu_email u))
                          (signUp_doc env (iu_email u) (iu_name u) (iu_role u))
                          false)
                    (renamed env (iu_email u) (iu_password u) (iu_name u) w)))).
      assert (Hstep : seed_step env u w = (Return Next, w1)).
      { rewrite seed_step_unflagged by assumption.
        rewrite createInitialUser_accepted by assumption.
        reflexivity. }
      assert (Hacc : forall k, k <> iu_email u ->
                accounts w1 !! k
                = rename (new_uid env (iu_email u)) (iu_name u)
                    <$> accounts w !! k).
      { intros k Hk. cbn. rewrite lookup_fmap.
        now rewrite lookup_insert_ne by congruence. }
      assert (Hgo1 : forallb (goes_through env w1) l = true).
      { apply forallb_forall. intros v Hv.
        pose proof (proj1 (forallb_forall _ _) Hgo v Hv) as Hgv.
        apply goes_through_spec in Hgv as [Hc Hgv].
        apply goes_through_spec. split; [exact Hc |].
        destruct Hgv as [[b Hb] | Hgv]; [left | now right].
        rewrite Hacc by now apply Hlater. rewrite Hb. now eexists. }
      destruct (IH w1)
        as (w' & Hrun & Hall & Hsome & Hkept & Hnone & Hdocs);
        [exact Hflag | exact Hemails' | exact Huids' | exact Hgo1 |].
      exists w'. split.
      { cbn [for_of]. unfold bind. rewrite Hstep. exact Hrun. }
      split; [| split; [| split; [| split]]].
      * intros v [<- | Hv].
        -- assert (Hmine : accounts w' !! iu_email u
                           = Some (provisioned_principal env u)).
           { apply Hkept; [apply renamed_account | exact Huid]. }
           split; [rewrite Hmine; now eexists |].
           intros _. split; [exact Hmine |].
           rewrite Hdocs by exact Huid. cbn. apply lookup_insert_eq.
        -- destruct (Hall v Hv) as [Hv1 Hv2]. split; [exact Hv1 |].
           intros Hfresh. apply Hv2.
           rewrite Hacc by now apply Hlater. now rewrite Hfresh.
      * intros k [q Hq]. apply Hsome.
        destruct (decide (k = iu_email u)) as [-> | Hk].
        -- eexists. apply renamed_account.
        -- rewrite Hacc by exact Hk. rewrite Hq. now eexists.
      * intros k q Hq Hquid.
        apply not_in_cons in Hquid as [Hquid Hquid'].
        apply Hkept; [| exact Hquid'].
        assert (Hk : k <> iu_email u) by congruence.
        rewrite Hacc by exact Hk. rewrite Hq. cbn.
        f_equal. now apply rename_other.
      * intros k Hk Hnot. apply not_in_cons in Hnot as [Hnot Hnot'].
        apply Hnone; [| exact Hnot']. rewrite Hacc by exact Hnot.
        now rewrite Hk.
      * intros id Hid. apply not_in_cons in Hid as [Hid Hid'].
        rewrite Hdocs by exact Hid'.
        cbn. apply lookup_insert_ne. congruence.
Qed.

Lemma NoDup_map_middle (f : InitialUser -> string) pre u post :
  List.NoDup (map f (pre ++ u :: post)) ->
  List.NoDup (map f pre) /\
  (forall v, In v (u :: post) -> ~ In (f v) (map f pre)) /\
  (forall v, In v post -> f v <> f u).
Proof.
  rewrite map_app. intros H.
  apply NoDup_ListNoDup in H. apply NoDup_app in H as (Hpre & Hdisj & Hrest).
  change (map f (u :: post)) with (f u :: map f post) in Hrest.
  apply NoDup_cons in Hrest as [Hu _].
  split; [now apply NoDup_ListNoDup |]. split.
  - intros v Hv Hin. apply (Hdisj (f v)); apply list_elem_of_In;
      [exact Hin | now apply in_map].
  - intros v Hv Heq. apply Hu. rewrite <- Heq.
    apply list_elem_of_In. now apply in_map.
Qed.

(** The run over a list whose entries before [u] the services let
    through and whose entry [u] the provider rate-limits: those entries
    are gone through, the flag is set, and nothing is done for [u] or
    for the entries behind it. *)
Lemma setupUsers_halts_at pre u post w e :
  localStorage w !! rate_limit_flag <> Some "true" ->
  List.NoDup (map iu_email (pre ++ u :: post)) ->
  List.NoDup (uids env (pre ++ u :: post)) ->
  forallb (goes_through env w) pre = true ->
  provider_refusal env w u = Some e ->
  code e = Some "auth/too-many-requests" ->
  exists w',
    setupUsers env (pre ++ u :: post) w = (Return tt, w') /\
    localStorage w' !! rate_limit_flag = Some "true" /\
    attempted (trace w')
      = (attempted (trace w) ++ map iu_email (pre ++ [u]))%list /\
    (forall v, In v pre ->
       is_Some (accounts w' !! iu_email v) /\
       (accounts w !! iu_email v = None ->
        accounts w' !! iu_email v = Some (provisioned_principal env v) /\
        users w' !! new_uid env (iu_email v)
          = Some (provisioned_doc env v))) /\
    (forall v, In v post ->
       accounts w !! iu_email v = None -> accounts w' !! iu_email v = None) /\
    (forall v, In v (u :: post) ->
       users w' !! new_uid env (iu_email v)
       = users w !! new_uid env (iu_email v)).
Proof.
  intros Hflag Hemails Huids Hgo Hrefusal Hcode.
  destruct (NoDup_map_middle _ _ _ _ Hemails) as (Hemails' & Hapart & Hnotu).
  destruct (NoDup_map_middle _ _ _ _ Huids) as (Huids' & Hapart_id & _).
  destruct (for_of_goes_through pre w Hflag Hemails' Huids' Hgo)
    as (w1 & Hpre & Hall & Hsome & _ & Hnone & Hdocs).
  assert (Hcreate : exists wk,
            createInitialUser env (iu_email u) (iu_password u) (iu_name u)
              (iu_role u) w1 = (Throw e, wk) /\
            users wk = users w1 /\
            forall k, k <> iu_email u -> accounts wk !! k = accounts w1 !! k).
  { unfold provider_refusal in Hrefusal.
    destruct (createUser_fault env (iu_email u)) as [e'|] eqn:Hfault.
    - injection Hrefusal as ->. eexists. split.
      + now apply createInitialUser_creation_limited.
      + now split.
    - destruct (decide (accounts w !! iu_email u = None)) as [Hfresh | Hex].
      + rewrite bool_decide_eq_true_2 in Hrefusal by exact Hfresh.
        eexists. split.
        * apply createInitialUser_name_limited; try assumption.
          apply Hnone; [exact Hfresh |]. apply Hapart. now left.
        * split; [reflexivity |]. intros k Hk. cbn.
          apply lookup_insert_ne. congruence.
      + rewrite bool_decide_eq_false_2 in Hrefusal by exact Hex.
        discriminate. }
  destruct Hcreate as (wk & Hcreate & Husers & Haccounts).
  destruct (setupUsers_rate_limited env pre u post _ _ _ _ Hflag Hpre Hcreate
              Hcode) as [Hrun Hatt].
  exists (set_localStorage (insert rate_limit_flag "true") wk).
  split; [exact Hrun |].
  split; [cbn; apply lookup_insert_eq |].
  split; [exact Hatt |].
  cbn [accounts users set_localStorage]. rewrite Husers.
  split; [| split].
  - intros v Hv.
    assert (Hne : iu_email v <> iu_email u).
    { intros Heq. apply (Hapart u); [now left |].
      rewrite <- Heq. now apply in_map. }
    rewrite Haccounts by exact Hne. now apply Hall.
  - intros v Hv Hfresh.
    rewrite Haccounts by now apply Hnotu.
    apply Hnone; [exact Hfresh |]. apply Hapart. now right.
  - intros v Hv. apply Hdocs. now apply Hapart_id.
Qed.

End RateLimit.

(** C8. When the provider answers the k-th entry of the fixed list with
    a rate-limit error, be it on the creation of the account or on the
    display name of the account it has just created, and the services
    let the entries before it through, [setupInitialUsers] returns
    normally with the sticky flag set.  The entries before the k-th have
    been processed: each has its account, and each that had none when
    the run began has been created with the listed display name and has
    its profile document with the listed name, email and role.  The
    provider has been asked for the entries up to the k-th and for none
    behind it; no account is created for an entry behind the k-th, and
    no document is written for the k-th or any entry behind it.  And any
    invocation that finds the flag set does nothing at all.  The
    premises speak of the environment and of the world the run starts
    in only; the provider is supposed to give the listed accounts ids of
    their own. *)
Theorem setupInitialUsers_rate_limit_halts env w k u e :
  INITIAL_USERS !! k = Some u ->
  localStorage w !! rate_limit_flag <> Some "true" ->
  auth env = true ->
  List.NoDup (map (fun v => new_uid env (iu_email v)) INITIAL_USERS) ->
  forallb (goes_through env w) (take k INITIAL_USERS) = true ->
  provider_refusal env w u = Some e ->
  code e = Some "auth/too-many-requests" ->
  exists w',
    setupInitialUsers env w = (Return tt, w') /\
    localStorage w' !! rate_limit_flag = Some "true" /\
    attempted (trace w')
      = (attempted (trace w) ++ map iu_email (take (S k) INITIAL_USERS))%list /\
    (forall v, In v (take k INITIAL_USERS) ->
       is_Some (accounts w' !! iu_email v) /\
       (accounts w !! iu_email v = None ->
        accounts w' !! iu_email v
          = Some {| uid := new_uid env (iu_email v);
                    p_email := Some (iu_email v);
                    displayName := Some (iu_name v) |} /\
        users w' !! new_uid env (iu_email v)
          = Some {| d_id := Some (new_uid env (iu_email v));
                    d_name := Some (iu_name v);
                    d_email := Some (iu_email v);
                    d_role := Some (iu_role v);
                    d_createdAt := Some serverTimestamp |})) /\
    (forall v, In v (drop (S k) INITIAL_USERS) ->
       accounts w !! iu_email v = None -> accounts w' !! iu_email v = None) /\
    (forall v, In v (drop k INITIAL_USERS) ->
       users w' !! new_uid env (iu_email v)
       = users w !! new_uid env (iu_email v)) /\
    (forall env2 w2,
       localStorage w2 !! rate_limit_flag = Some "true" ->
       setupInitialUsers env2 w2 = (Return tt, w2)).
Proof.
  intros Hk Hflag Hauth Huids Hgo Hrefusal Hcode.
  assert (Hemails : List.NoDup (map iu_email INITIAL_USERS)).
  { repeat constructor; cbn; intuition discriminate. }
  pose proof (take_drop_middle _ _ _ Hk) as Hlist.
  rewrite <- Hlist in Hemails, Huids.
  destruct (setupUsers_halts_at env Hauth _ u (drop (S k) INITIAL_USERS) w e
              Hflag Hemails Huids Hgo Hrefusal Hcode)
    as (w' & Hrun & Hset & Hatt & Hbefore & Hbehind & Hdocs).
  rewrite Hlist in Hrun.
  exists w'. split; [exact Hrun |].
  split; [exact Hset |].
  split; [rewrite (take_S_r _ _ _ Hk); exact Hatt |].
  split; [exact Hbefore |].
  split; [exact Hbehind |].
  split.
  - rewrite (drop_S _ _ _ Hk). exact Hdocs.
  - intros env2 w2. apply setupUsers_flagged.
Qed.

Lemma setupInitialUsers_rate_limit_halts_witness :
  exists w',
    setupInitialUsers (rate_limited_at "john@aspcranes.com") empty_world
      = (Return tt, w') /\
    localStorage w' !! rate_limit_flag = Some "true" /\
    attempted (trace w') = ["admin@aspcranes.com"; "john@aspcranes.com"] /\
    (forall v,
       In v [{| iu_email := "admin@aspcranes.com"; iu_password := "admin123";
                iu_name := "Admin User"; iu_role := admin |}] ->
       is_Some (accounts w' !! iu_email v) /\
       (accounts empty_world !! iu_email v = None ->
        accounts w' !! iu_email v
          = Some {| uid := uid_of (iu_email v);
                    p_email := Some (iu_email v);
                    displayName := Some (iu_name v) |} /\
        users w' !! uid_of (iu_email v)
          = Some {| d_id := Some (uid_of (iu_email v));
                    d_name := Some (iu_name v);
                    d_email := Some (iu_email v);
                    d_role := Some (iu_role v);
                    d_createdAt := Some serverTimestamp |})) /\
    (forall v,
       In v [{| iu_email := "sara@aspcranes.com"; iu_password := "manager123";
                iu_name := "Sara Manager"; iu_role := operations_manager |};
             {| iu_email := "mike@aspcranes.com"; iu_password := "operator123";
                iu_name := "Mike Operator"; iu_role := operator |}] ->
       accounts empty_world !! iu_email v = None ->
       accounts w' !! iu_email v = None) /\
    (forall v,
       In v [{| iu_email := "john@aspcranes.com"; iu_password := "sales123";
                iu_name := "John Sales"; iu_role := sales_agent |};
             {| iu_email := "sara@aspcranes.com"; iu_password := "manager123";
                iu_name := "Sara Manager"; iu_role := operations_manager |};
             {| iu_email := "mike@aspcranes.com"; iu_password := "operator123";
                iu_name := "Mike Operator"; iu_role := operator |}] ->
       users w' !! uid_of (iu_email v) = users empty_world !! uid_of (iu_email v)) /\
    (forall env2 w2,
       localStorage w2 !! rate_limit_flag = Some "true" ->
       setupInitialUsers env2 w2 = (Return tt, w2)).
Proof.
  apply (setupInitialUsers_rate_limit_halts
           (rate_limited_at "john@aspcranes.com") empty_world 1
           {| iu_email := "john@aspcranes.com"; iu_password := "sales123";
              iu_name := "John Sales"; iu_role := sales_agent |}
           too_many_requests).
  - reflexivity.
  - vm_compute. discriminate.
  - reflexivity.
  - vm_compute. repeat constructor; cbn; intuition discriminate.
  - vm_compute. reflexivity.
  - vm_compute. reflexivity.
  - reflexivity.
Defined.

(** The same list, the provider rate-limiting the display name of the
    second account instead: the account it has just created stays
    without name and without document, and the run halts all the
    same. *)
Example rate_limit_on_second_display_name :
  let w' := snd (setupInitialUsers
                   (name_rate_limited_at "uid:john@aspcranes.com")
                   empty_world) in
  fst (setupInitialUsers (name_rate_limited_at "uid:john@aspcranes.com")
         empty_world) = Return tt /\
  localStorage w' !! rate_limit_flag = Some "true" /\
  attempted (trace w') = ["admin@aspcranes.com"; "john@aspcranes.com"] /\
  accounts w' !! "admin@aspcranes.com"
    = Some {| uid := "uid:admin@aspcranes.com";
              p_email := Some "admin@aspcranes.com";
              displayName := Some "Admin User" |} /\
  users w' !! "uid:admin@aspcranes.com"
    = Some {| d_id := Some "uid:admin@aspcranes.com";
              d_name := Some "Admin User";
              d_email := Some "admin@aspcranes.com";
              d_role := Some admin;
              d_createdAt := Some serverTimestamp |} /\
  accounts w' !! "john@aspcranes.com"
    = Some {| uid := "uid:john@aspcranes.com";
              p_email := Some "john@aspcranes.com";
              displayName := None |} /\
  users w' !! "uid:john@aspcranes.com" = None /\
  accounts w' !! "sara@aspcranes.com" = None /\
  accounts w' !! "mike@aspcranes.com" = None.
Proof.
  cbn zeta.
  split; [vm_compute; reflexivity |].
  split; [vm_compute; reflexivity |].
  split; [vm_compute; reflexivity |].
  split; [vm_compute; reflexivity |].
  split; [vm_compute; reflexivity |].
  split; [vm_compute; reflexivity |].
  split; [vm_compute; reflexivity |].
  split; vm_compute; reflexivity.
Qed.
